(** * C0-microSD+ host utilities: register transport over a block device

    A shallow embedding of [src/c/lib/C0microSDPlusHostUtils.c] and
    [src/c/include/C0microSDPlusConstants.h].

    The C functions talk to the operating system through [open], [lseek],
    [read], [write], [close], [perror] and [exit].  They are embedded as
    programs of a small free monad over these system calls; a program is
    run against an operating system (a handler on a world state) and
    yields an outcome, a final world and the trace of the calls made. *)

From Stdlib Require Import ZArith Lia Bool.
From Stdlib Require Import Strings.Byte.
From stdpp Require Import gmap strings list.

Local Open Scope Z_scope.

(** ** C integer types (LP64), as [Z] with the conversions written out *)

Definition SSIZE_MIN : Z := - 2 ^ 63.
Definition SSIZE_MAX : Z := 2 ^ 63 - 1.
Definition SIZE_MAX : Z := 2 ^ 64 - 1.
Definition OFF_MAX : Z := 2 ^ 63 - 1.
Definition UINT32_MAX : Z := 2 ^ 32 - 1.

(** Values of type [ssize_t]. *)
Definition ssize_range (x : Z) : Prop := SSIZE_MIN <= x <= SSIZE_MAX.

(** Conversion of a signed value to [size_t], as the usual arithmetic
    conversions do when an [ssize_t] meets a [size_t]. *)
Definition to_size_t (x : Z) : Z := x mod 2 ^ 64.

(** Conversion to [uint32_t]. *)
Definition to_uint32 (x : Z) : Z := x mod 2 ^ 32.

(** [sizeof(uint32_t)] *)
Definition sizeof_uint32 : Z := 4.

(** [EXIT_FAILURE] of <stdlib.h> *)
Definition EXIT_FAILURE : Z := 1.

(** ** Bytes and 32-bit words in memory *)

Inductive endianness : Set := LittleEndian | BigEndian.

Definition byte_to_Z (b : byte) : Z := Z.of_N (Byte.to_N b).

Definition byte_of_Z (z : Z) : byte :=
  match Byte.of_N (Z.to_N (z mod 256)) with
  | Some b => b
  | None => x00
  end.

(** The four bytes of a 32-bit word, least significant first. *)
Definition le_bytes (v : Z) : list byte :=
  [ byte_of_Z v; byte_of_Z (Z.shiftr v 8);
    byte_of_Z (Z.shiftr v 16); byte_of_Z (Z.shiftr v 24) ].

Definition le_value (bs : list byte) : Z :=
  foldr (fun b acc => byte_to_Z b + 256 * acc) 0 bs.

(** Object representation of a [uint32_t] in the host's byte order. *)
Definition encode32 (e : endianness) (v : Z) : list byte :=
  match e with
  | LittleEndian => le_bytes v
  | BigEndian => rev (le_bytes v)
  end.

Definition decode32 (e : endianness) (bs : list byte) : Z :=
  match e with
  | LittleEndian => le_value bs
  | BigEndian => le_value (rev bs)
  end.

(** A byte of host memory: [None] is an indeterminate (never written)
    byte, as in an uninitialised local variable. *)
Definition cell : Type := option byte.

(** Bytes stored by a transfer at the start of a buffer. *)
Definition overlay (data : list byte) (buf : list cell) : list cell :=
  (Some <$> data) ++ drop (length data) buf.

(** Reading a 4-byte object: defined only if all its bytes are. *)
Definition load32 (e : endianness) (obj : list cell) : option Z :=
  match obj with
  | [Some b0; Some b1; Some b2; Some b3] => Some (decode32 e [b0; b1; b2; b3])
  | _ => None
  end.

(** A local variable of [n] bytes before anything is stored in it. *)
Definition indeterminate (n : nat) : list cell := replicate n None.

(** ** C0microSDPlusConstants.h *)

(** [enum SignaloidSoCConstants] *)
Definition kSignaloidSoCConstantsCommandOffset : Z := 0x01000000.
Definition kSignaloidSoCConstantsConfigOffset : Z := 0x01000004.
Definition kSignaloidSoCConstantsBootAddressOffset : Z := 0x01000008.
Definition kSignaloidSoCConstantsStatusOffset : Z := 0x0100000C.
Definition kSignaloidSoCConstantsMMIOBufferOffset : Z := 0x01004000.
Definition kSignaloidSoCConstantsMMIOBufferSizeBytes : Z := 8192.
Definition kSignaloidSoCConstantsMMIOBufferSizeWords : Z := 2048.

(** [enum SignaloidC0microSDPlusConstants] *)
Definition kSignaloidSoCConstantsBootloaderOffset : Z := 0x00100000.
Definition kSignaloidSoCConstantsApplicationOffset : Z := 0x00180000.
Definition kSignaloidSoCConstantsMainMemoryOffset : Z := 0x01080000.

(** The enumerators of [SignaloidSoCStatus].  A C object of the
    enumeration type holds any value of its underlying 32-bit integer
    type, so the functions below carry a status as a [Z]; the
    enumerators are the named values among them. *)
Inductive SignaloidSoCStatus : Set :=
| kSignaloidSoCStatusWaitingForCommand
| kSignaloidSoCStatusCalculating
| kSignaloidSoCStatusDone
| kSignaloidSoCStatusInvalidCommand.

Definition status_value (s : SignaloidSoCStatus) : Z :=
  match s with
  | kSignaloidSoCStatusWaitingForCommand => 0
  | kSignaloidSoCStatusCalculating => 1
  | kSignaloidSoCStatusDone => 2
  | kSignaloidSoCStatusInvalidCommand => 3
  end.

(** The enumerator a raw status value names, if any. *)
Definition status_of_value (v : Z) : option SignaloidSoCStatus :=
  if v =? 0 then Some kSignaloidSoCStatusWaitingForCommand
  else if v =? 1 then Some kSignaloidSoCStatusCalculating
  else if v =? 2 then Some kSignaloidSoCStatusDone
  else if v =? 3 then Some kSignaloidSoCStatusInvalidCommand
  else None.

(** ** System calls *)

Inductive open_flag : Set := O_RDONLY | O_WRONLY | O_SYNC | O_DSYNC.

#[global] Instance open_flag_eq_dec : EqDecision open_flag.
Proof. solve_decision. Defined.

Inductive whence : Set := SEEK_SET.

(** The calls the library makes, indexed by the type of what the
    operating system hands back.  [sys_read] returns the count together
    with the bytes it stored in the caller's buffer; [sys_write] is
    given the bytes of the caller's buffer that the count covers. *)
Inductive syscall : Type -> Type :=
| sys_open (path : string) (flags : list open_flag) : syscall Z
| sys_lseek (fd : Z) (offset : Z) (w : whence) : syscall Z
| sys_read (fd : Z) (count : Z) : syscall (Z * list byte)
| sys_write (fd : Z) (data : list byte) (count : Z) : syscall Z
| sys_close (fd : Z) : syscall Z
| sys_perror (msg : string) : syscall unit.

(** A call together with its answer, as observed from outside. *)
Inductive event : Type :=
| EvOpen (path : string) (flags : list open_flag) (ret : Z)
| EvLseek (fd : Z) (offset : Z) (w : whence) (ret : Z)
| EvRead (fd : Z) (count : Z) (ret : Z) (data : list byte)
| EvWrite (fd : Z) (data : list byte) (count : Z) (ret : Z)
| EvClose (fd : Z) (ret : Z)
| EvPerror (msg : string).

Definition mk_event {R : Type} (c : syscall R) : R -> event :=
  match c in syscall R return R -> event with
  | sys_open path flags => fun r => EvOpen path flags r
  | sys_lseek fd off wh => fun r => EvLseek fd off wh r
  | sys_read fd count => fun r => EvRead fd count (fst r) (snd r)
  | sys_write fd data count => fun r => EvWrite fd data count r
  | sys_close fd => fun r => EvClose fd r
  | sys_perror msg => fun _ => EvPerror msg
  end.

(** An operating system: a state and its answer to each call. *)
Record OS : Type := {
  world : Type;
  handle : forall R : Type, syscall R -> world -> R * world
}.
Arguments handle _ {R} _ _.

(** ** Programs *)

(** Straight-line code over system calls.  [Exit] is a call of
    [exit(status)], which does not return; [Undef] is a use of an
    indeterminate value. *)
Inductive Prog (A : Type) : Type :=
| Ret (a : A)
| Exit (status : Z)
| Undef
| Call {R : Type} (c : syscall R) (k : R -> Prog A).
Arguments Ret {A} a.
Arguments Exit {A} status.
Arguments Undef {A}.
Arguments Call {A R} c k.

Fixpoint bind {A B : Type} (m : Prog A) (f : A -> Prog B) : Prog B :=
  match m with
  | Ret a => f a
  | Exit s => Exit s
  | Undef => Undef
  | Call c k => Call c (fun r => bind (k r) f)
  end.

Definition call {R : Type} (c : syscall R) : Prog R := Call c Ret.

#[global] Instance Prog_ret : MRet Prog := @Ret.
#[global] Instance Prog_bind : MBind Prog := fun A B f m => bind m f.

Inductive outcome (A : Type) : Type :=
| Returned (a : A)
| Exited (status : Z)
| Undefined.
Arguments Returned {A} a.
Arguments Exited {A} status.
Arguments Undefined {A}.

Record result (W A : Type) : Type := {
  res_outcome : outcome A;
  res_world : W;
  res_trace : list event
}.
Arguments res_outcome {W A} r.
Arguments res_world {W A} r.
Arguments res_trace {W A} r.

Fixpoint run (os : OS) {A : Type} (p : Prog A) (w : world os) : result (world os) A :=
  match p with
  | Ret a => {| res_outcome := Returned a; res_world := w; res_trace := [] |}
  | Exit s => {| res_outcome := Exited s; res_world := w; res_trace := [] |}
  | Undef => {| res_outcome := Undefined; res_world := w; res_trace := [] |}
  | Call c k =>
      let rw := handle os c w in
      let res := run os (k (fst rw)) (snd rw) in
      {| res_outcome := res_outcome res;
         res_world := res_world res;
         res_trace := mk_event c (fst rw) :: res_trace res |}
  end.

(** ** C0microSDPlusHostUtils.c *)

(** A C [bool] from an integer: nonzero is [true]. *)
Definition c_bool (x : Z) : bool := negb (x =? 0).

(** [perror(msg)] when [cond] holds, as in [if (cond) { perror(msg); }]. *)
Definition perror_if (cond : bool) (msg : string) : Prog unit :=
  if cond then call (sys_perror msg) else Ret tt.

(** [hostUtilsReadFromC0microSDPlus(device, destBuffer, bufferSize, offset)]:
    returns the [ssize_t] result together with the destination buffer
    as the call leaves it. *)
Definition hostUtilsReadFromC0microSDPlus
    (device : string) (destBuffer : list cell) (bufferSize offset : Z)
    : Prog (Z * list cell) :=
  fd ← call (sys_open device [O_RDONLY; O_SYNC; O_DSYNC]);
  if fd =? -1 then
    call (sys_perror "Error opening device");;
    Ret (-1, destBuffer)
  else
    seek_offset ← call (sys_lseek fd offset SEEK_SET);
    if seek_offset =? -1 then
      call (sys_perror "Error seeking to target offset");;
      call (sys_close fd);;
      Ret (-1, destBuffer)
    else
      rd ← call (sys_read fd bufferSize);
      let result := fst rd in
      let destBuffer := overlay (snd rd) destBuffer in
      perror_if (negb (to_size_t result =? bufferSize))
                "Error reading data from the device";;
      call (sys_close fd);;
      Ret (result, destBuffer).

(** [hostUtilsWriteToC0microSDPlus(device, sourceBuffer, bufferSize, offset)] *)
Definition hostUtilsWriteToC0microSDPlus
    (device : string) (sourceBuffer : list byte) (bufferSize offset : Z)
    : Prog Z :=
  fd ← call (sys_open device [O_WRONLY; O_SYNC; O_DSYNC]);
  if fd =? -1 then
    call (sys_perror "Error opening device");;
    Ret (-1)
  else
    seek_offset ← call (sys_lseek fd offset SEEK_SET);
    if seek_offset =? -1 then
      call (sys_perror "Error seeking to target offset");;
      call (sys_close fd);;
      Ret (-1)
    else
      result ← call (sys_write fd (take (Z.to_nat bufferSize) sourceBuffer) bufferSize);
      perror_if (negb (to_size_t result =? bufferSize))
                "Error writing data to the device";;
      call (sys_close fd);;
      Ret result.

(** [hostUtilsReadSignaloidSoCMMIOBuffer]: the comparison is between an
    [ssize_t] and an enumeration constant, hence signed. *)
Definition hostUtilsReadSignaloidSoCMMIOBuffer
    (device : string) (destBuffer : list cell) : Prog (list cell) :=
  rb ← hostUtilsReadFromC0microSDPlus device destBuffer
         kSignaloidSoCConstantsMMIOBufferSizeBytes
         kSignaloidSoCConstantsMMIOBufferOffset;
  let res := fst rb in
  if negb (res =? kSignaloidSoCConstantsMMIOBufferSizeBytes)
  then Exit EXIT_FAILURE
  else Ret (snd rb).

Definition hostUtilsWriteSignaloidSoCMMIOBuffer
    (device : string) (sourceBuffer : list byte) : Prog unit :=
  res ← hostUtilsWriteToC0microSDPlus device sourceBuffer
          kSignaloidSoCConstantsMMIOBufferSizeBytes
          kSignaloidSoCConstantsMMIOBufferOffset;
  if negb (res =? kSignaloidSoCConstantsMMIOBufferSizeBytes)
  then Exit EXIT_FAILURE
  else Ret tt.

(** The lines [reg_val = 0; reg_val |= ((uint32_t)flag & 0x1) << i; ...]
    of [hostUtilsSetSignaloidSoCConfigRegisterUnpacked]. *)
Definition config_reg_pack
    (rstn unlock_bitstream_section sw_led_enable sw_led : bool) : Z :=
  let reg_val := 0 in
  let reg_val := Z.lor reg_val (to_uint32 (Z.shiftl (Z.land (Z.b2z rstn) 1) 0)) in
  let reg_val := Z.lor reg_val (to_uint32 (Z.shiftl (Z.land (Z.b2z unlock_bitstream_section) 1) 1)) in
  let reg_val := Z.lor reg_val (to_uint32 (Z.shiftl (Z.land (Z.b2z sw_led_enable) 1) 2)) in
  let reg_val := Z.lor reg_val (to_uint32 (Z.shiftl (Z.land (Z.b2z sw_led) 1) 3)) in
  reg_val.

(** The lines [*flag = (bool)((reg_val >> i) & 0x1); ...] of
    [hostUtilsGetSignaloidSoCConfigRegisterUnpacked]: the values left
    in [*rstn], [*unlock_bitstream_section], [*sw_led_enable], [*sw_led]. *)
Definition config_reg_unpack (reg_val : Z) : bool * bool * bool * bool :=
  (c_bool (Z.land (Z.shiftr reg_val 0) 1),
   c_bool (Z.land (Z.shiftr reg_val 1) 1),
   c_bool (Z.land (Z.shiftr reg_val 2) 1),
   c_bool (Z.land (Z.shiftr reg_val 3) 1)).

Section RegisterAccess.

(** Byte order of the host: the registers are transferred as the object
    representation of a [uint32_t] variable. *)
Variable native : endianness.

Definition hostUtilsGetSignaloidSoCConfigRegister (device : string) : Prog Z :=
  rb ← hostUtilsReadFromC0microSDPlus device (indeterminate 4)
         sizeof_uint32 kSignaloidSoCConstantsConfigOffset;
  let res := fst rb in
  let socConfig := snd rb in
  if negb (to_size_t res =? sizeof_uint32)
  then Exit EXIT_FAILURE
  else match load32 native socConfig with
       | Some v => Ret v
       | None => Undef
       end.

Definition hostUtilsSetSignaloidSoCConfigRegister (device : string) (config : Z)
    : Prog unit :=
  res ← hostUtilsWriteToC0microSDPlus device (encode32 native config)
          sizeof_uint32 kSignaloidSoCConstantsConfigOffset;
  if negb (to_size_t res =? sizeof_uint32)
  then Exit EXIT_FAILURE
  else Ret tt.

Definition hostUtilsGetSignaloidSoCConfigRegisterUnpacked (device : string)
    : Prog (bool * bool * bool * bool) :=
  reg_val ← hostUtilsGetSignaloidSoCConfigRegister device;
  Ret (config_reg_unpack reg_val).

Definition hostUtilsSetSignaloidSoCConfigRegisterUnpacked (device : string)
    (rstn unlock_bitstream_section sw_led_enable sw_led : bool) : Prog unit :=
  let reg_val :=
    config_reg_pack rstn unlock_bitstream_section sw_led_enable sw_led in
  hostUtilsSetSignaloidSoCConfigRegister device reg_val.

Definition hostUtilsSetSignaloidSoCCommandRegister (device : string) (command : Z)
    : Prog unit :=
  res ← hostUtilsWriteToC0microSDPlus device (encode32 native command)
          sizeof_uint32 kSignaloidSoCConstantsCommandOffset;
  if negb (to_size_t res =? sizeof_uint32)
  then Exit EXIT_FAILURE
  else Ret tt.

(** The result is the raw 32-bit content of the [SignaloidSoCStatus]
    variable that the four bytes were read into. *)
Definition hostUtilsGetSignaloidSoCStatusRegister (device : string) : Prog Z :=
  rb ← hostUtilsReadFromC0microSDPlus device (indeterminate 4)
         sizeof_uint32 kSignaloidSoCConstantsStatusOffset;
  let res := fst rb in
  let status := snd rb in
  if negb (to_size_t res =? sizeof_uint32)
  then Exit EXIT_FAILURE
  else match load32 native status with
       | Some v => Ret v
       | None => Undef
       end.

Definition hostUtilsGetSignaloidSoCBootAddressRegister (device : string) : Prog Z :=
  rb ← hostUtilsReadFromC0microSDPlus device (indeterminate 4)
         sizeof_uint32 kSignaloidSoCConstantsBootAddressOffset;
  let res := fst rb in
  let socBootAddress := snd rb in
  if negb (to_size_t res =? sizeof_uint32)
  then Exit EXIT_FAILURE
  else match load32 native socBootAddress with
       | Some v => Ret v
       | None => Undef
       end.

Definition hostUtilsSetSignaloidSoCBootAddressRegister (device : string)
    (bootAddress : Z) : Prog unit :=
  res ← hostUtilsWriteToC0microSDPlus device (encode32 native bootAddress)
          sizeof_uint32 kSignaloidSoCConstantsBootAddressOffset;
  if negb (to_size_t res =? sizeof_uint32)
  then Exit EXIT_FAILURE
  else Ret tt.

End RegisterAccess.

(** ** Observations on traces *)

Definition is_open_failure (e : event) : bool :=
  match e with EvOpen _ _ ret => ret =? -1 | _ => false end.

Definition is_seek_failure (e : event) : bool :=
  match e with EvLseek _ _ _ ret => ret =? -1 | _ => false end.

(** The underlying [read] or [write] reported an OS-level error. *)
Definition is_transfer_error (e : event) : bool :=
  match e with
  | EvRead _ _ ret _ => ret =? -1
  | EvWrite _ _ _ ret => ret =? -1
  | _ => false
  end.

(** The underlying [read] or [write] moved [n] bytes, fewer than asked. *)
Definition is_short_transfer (n : Z) (e : event) : bool :=
  match e with
  | EvRead _ count ret _ => (ret =? n) && (0 <=? ret) && (ret <? count)
  | EvWrite _ _ count ret => (ret =? n) && (0 <=? ret) && (ret <? count)
  | _ => false
  end.

Definition open_failed (tr : list event) : bool := existsb is_open_failure tr.
Definition seek_failed (tr : list event) : bool := existsb is_seek_failure tr.
Definition transfer_error (tr : list event) : bool := existsb is_transfer_error tr.
Definition short_transfer (n : Z) (tr : list event) : bool :=
  existsb (is_short_transfer n) tr.

(** Messages handed to [perror], in order. *)
Definition diagnostics (tr : list event) : list string :=
  omap (fun e => match e with EvPerror msg => Some msg | _ => None end) tr.

(** Offsets of the seeks and byte counts of the transfers in a trace. *)
Definition seek_offsets (tr : list event) : list Z :=
  omap (fun e => match e with EvLseek _ off _ _ => Some off | _ => None end) tr.

Definition transfer_counts (tr : list event) : list Z :=
  omap (fun e => match e with
                 | EvRead _ count _ _ => Some count
                 | EvWrite _ _ count _ => Some count
                 | _ => None
                 end) tr.

(** Bytes submitted to [write], per call. *)
Definition written_data (tr : list event) : list (list byte) :=
  omap (fun e => match e with EvWrite _ data _ _ => Some data | _ => None end) tr.

(** File descriptors held after a trace, starting from [held]: an
    [open] that did not return -1 adds its descriptor, a [close]
    releases the descriptor it is called on. *)
Fixpoint open_handles (held : list Z) (tr : list event) : list Z :=
  match tr with
  | [] => held
  | EvOpen _ _ fd :: tr' =>
      open_handles (if fd =? -1 then held else fd :: held) tr'
  | EvClose fd _ :: tr' =>
      open_handles (filter (fun x => x ≠ fd) held) tr'
  | _ :: tr' => open_handles held tr'
  end.

Definition leaked_handles (tr : list event) : list Z := open_handles [] tr.

(** The value a finished call returned, if it returned. *)
Definition returned {A : Type} (o : outcome A) : option A :=
  match o with Returned a => Some a | _ => None end.

(** ** A regular file standing in for the device

    An operating system whose files are sparse byte stores with a size;
    bytes never written read as zero.  Descriptors are the lowest free
    number below [OPEN_MAX]. *)

Record file : Type := { f_size : Z; f_data : gmap Z byte }.

Record open_file : Type := {
  of_path : string;
  of_wronly : bool;
  of_pos : Z
}.

Record fs_world : Type := {
  fs_files : gmap string file;
  fs_fds : gmap Z open_file;
  fs_stderr : list string
}.

Definition OPEN_MAX : Z := 1024.

Definition fresh_fd (tbl : gmap Z open_file) : option Z :=
  List.find (fun n => bool_decide (tbl !! n = None)) (seqZ 0 OPEN_MAX).

Definition file_byte (f : file) (i : Z) : byte := default x00 (f_data f !! i).

Definition file_read (f : file) (pos n : Z) : list byte :=
  file_byte f <$> seqZ pos n.

Fixpoint store_bytes (pos : Z) (data : list byte) (m : gmap Z byte) : gmap Z byte :=
  match data with
  | [] => m
  | b :: bs => <[pos := b]> (store_bytes (pos + 1) bs m)
  end.

Definition file_write (f : file) (pos : Z) (data : list byte) : file :=
  {| f_size := Z.max (f_size f) (pos + Z.of_nat (length data));
     f_data := store_bytes pos data (f_data f) |}.

Definition fs_open (path : string) (flags : list open_flag) (w : fs_world)
    : Z * fs_world :=
  match fs_files w !! path with
  | None => (-1, w)
  | Some _ =>
      match fresh_fd (fs_fds w) with
      | None => (-1, w)
      | Some fd =>
          let entry := {| of_path := path;
                          of_wronly := bool_decide (O_WRONLY ∈ flags);
                          of_pos := 0 |} in
          (fd, {| fs_files := fs_files w;
                  fs_fds := <[fd := entry]> (fs_fds w);
                  fs_stderr := fs_stderr w |})
      end
  end.

Definition fs_lseek (fd offset : Z) (wh : whence) (w : fs_world) : Z * fs_world :=
  match fs_fds w !! fd with
  | None => (-1, w)
  | Some entry =>
      if (0 <=? offset) && (offset <=? OFF_MAX) then
        let entry' := {| of_path := of_path entry;
                         of_wronly := of_wronly entry;
                         of_pos := offset |} in
        (offset, {| fs_files := fs_files w;
                    fs_fds := <[fd := entry']> (fs_fds w);
                    fs_stderr := fs_stderr w |})
      else (-1, w)
  end.

Definition fs_read (fd count : Z) (w : fs_world) : (Z * list byte) * fs_world :=
  match fs_fds w !! fd with
  | None => ((-1, []), w)
  | Some entry =>
      if of_wronly entry then ((-1, []), w)
      else
        match fs_files w !! of_path entry with
        | None => ((-1, []), w)
        | Some f =>
            let n := Z.max 0 (Z.min (Z.min count SSIZE_MAX)
                                    (f_size f - of_pos entry)) in
            let entry' := {| of_path := of_path entry;
                             of_wronly := of_wronly entry;
                             of_pos := of_pos entry + n |} in
            ((n, file_read f (of_pos entry) n),
             {| fs_files := fs_files w;
                fs_fds := <[fd := entry']> (fs_fds w);
                fs_stderr := fs_stderr w |})
        end
  end.

Definition fs_write (fd : Z) (data : list byte) (count : Z) (w : fs_world)
    : Z * fs_world :=
  match fs_fds w !! fd with
  | None => (-1, w)
  | Some entry =>
      if of_wronly entry then
        match fs_files w !! of_path entry with
        | None => (-1, w)
        | Some f =>
            let data' := take (Z.to_nat (Z.min count SSIZE_MAX)) data in
            let n := Z.of_nat (length data') in
            let entry' := {| of_path := of_path entry;
                             of_wronly := of_wronly entry;
                             of_pos := of_pos entry + n |} in
            (n, {| fs_files := <[of_path entry := file_write f (of_pos entry) data']>
                                 (fs_files w);
                   fs_fds := <[fd := entry']> (fs_fds w);
                   fs_stderr := fs_stderr w |})
        end
      else (-1, w)
  end.

Definition fs_close (fd : Z) (w : fs_world) : Z * fs_world :=
  match fs_fds w !! fd with
  | None => (-1, w)
  | Some _ =>
      (0, {| fs_files := fs_files w;
             fs_fds := delete fd (fs_fds w);
             fs_stderr := fs_stderr w |})
  end.

Definition fs_perror (msg : string) (w : fs_world) : unit * fs_world :=
  (tt, {| fs_files := fs_files w;
          fs_fds := fs_fds w;
          fs_stderr := fs_stderr w ++ [msg] |}).

Definition fs_handle (R : Type) (c : syscall R) : fs_world -> R * fs_world :=
  match c in syscall R return fs_world -> R * fs_world with
  | sys_open path flags => fs_open path flags
  | sys_lseek fd off wh => fs_lseek fd off wh
  | sys_read fd count => fs_read fd count
  | sys_write fd data count => fs_write fd data count
  | sys_close fd => fs_close fd
  | sys_perror msg => fs_perror msg
  end.

Definition file_store : OS := {| world := fs_world; handle := fs_handle |}.

(** A world with one device file and nothing open. *)
Definition single_device (path : string) (f : file) : fs_world :=
  {| fs_files := {[ path := f ]}; fs_fds := ∅; fs_stderr := [] |}.

(** The file of [size] bytes holding [data] at [pos] and zero elsewhere. *)
Definition file_with (size pos : Z) (data : list byte) : file :=
  {| f_size := size; f_data := store_bytes pos data ∅ |}.

(** ** The contracts of [read] and [write]

    The count [read] reports is an [ssize_t], and when it is not
    negative that many bytes were stored in the caller's buffer. *)
Definition read_contract (os : OS) : Prop :=
  forall fd count (w : world os),
    let answer := (handle os (sys_read fd count) w).1 in
    ssize_range answer.1
    ∧ (0 <= answer.1 -> length answer.2 = Z.to_nat answer.1).

(** The count [write] reports is an [ssize_t]. *)
Definition write_contract (os : OS) : Prop :=
  forall fd data count (w : world os),
    ssize_range (handle os (sys_write fd data count) w).1.

(** ** Fatal termination of a register operation

    [op], built on the raw transaction [raw], aborts on a count other
    than [size]: whenever [raw] returns such a count (an [ssize_t]),
    [op] ends in [exit(EXIT_FAILURE)] right after the raw transaction,
    with no further system call and nothing returned. *)
Definition aborts_on_mismatch (os : OS) (w : world os) {A B : Type}
    (raw : Prog A) (count : A -> Z) (size : Z) (op : Prog B) : Prop :=
  forall a : A,
    res_outcome (run os raw w) = Returned a ->
    ssize_range (count a) ->
    count a ≠ size ->
    run os op w =
      {| res_outcome := Exited EXIT_FAILURE;
         res_world := res_world (run os raw w);
         res_trace := res_trace (run os raw w) |}.

(** A trace whose one transaction is at [offset] and of [size] bytes:
    the seek, if the device could be opened, is to [offset], and the
    transfer, if the seek succeeded, asks for [size] bytes. *)
Definition transacts_at (tr : list event) (offset size : Z) : Prop :=
  seek_offsets tr = (if open_failed tr then [] else [offset])
  ∧ transfer_counts tr =
      (if open_failed tr || seek_failed tr then [] else [size]).

(** ** Further observations on traces *)

(** Path and flags of each [open] of a trace. *)
Definition opens (tr : list event) : list (string * list open_flag) :=
  omap (fun e => match e with
                 | EvOpen path flags _ => Some (path, flags)
                 | _ => None
                 end) tr.

(** Descriptors that [open] returned, failures apart. *)
Definition obtained_descriptors (tr : list event) : list Z :=
  omap (fun e => match e with
                 | EvOpen _ _ ret => if ret =? -1 then None else Some ret
                 | _ => None
                 end) tr.

(** Descriptors that [lseek], [read], [write] and [close] were called on. *)
Definition used_descriptors (tr : list event) : list Z :=
  omap (fun e => match e with
                 | EvLseek fd _ _ _ => Some fd
                 | EvRead fd _ _ _ => Some fd
                 | EvWrite fd _ _ _ => Some fd
                 | EvClose fd _ => Some fd
                 | _ => None
                 end) tr.

(** Bytes delivered by [read], per call. *)
Definition read_data (tr : list event) : list (list byte) :=
  omap (fun e => match e with EvRead _ _ _ data => Some data | _ => None end) tr.

(** ** Return of a register operation

    [op], built on the raw transaction [raw], returns on the count
    [size]: whenever [raw] returns that count and [result] is defined
    on what [raw] returned, [op] returns that result right after the
    raw transaction, with no further system call. *)
Definition returns_on_match (os : OS) (w : world os) {A B : Type}
    (raw : Prog A) (count : A -> Z) (size : Z) (result : A -> option B)
    (op : Prog B) : Prop :=
  forall (a : A) (b : B),
    res_outcome (run os raw w) = Returned a ->
    count a = size ->
    result a = Some b ->
    run os op w =
      {| res_outcome := Returned b;
         res_world := res_world (run os raw w);
         res_trace := res_trace (run os raw w) |}.

(** ** Direction of a transaction

    A trace that opens [device] once, read-only and synchronous, and
    submits nothing to [write]; and one that opens it once, write-only
    and synchronous, and takes nothing from [read]. *)
Definition reads_only (device : string) (tr : list event) : Prop :=
  opens tr = [(device, [O_RDONLY; O_SYNC; O_DSYNC])] ∧ written_data tr = [].

Definition writes_only (device : string) (tr : list event) : Prop :=
  opens tr = [(device, [O_WRONLY; O_SYNC; O_DSYNC])] ∧ read_data tr = [].

(** * Properties *)

(** ** Integer conversions and byte encodings *)

Lemma to_size_t_nonneg x : 0 <= x -> to_size_t x <= x.
Proof.
  intros H. unfold to_size_t. apply Z.mod_le; lia.
Qed.

Lemma to_size_t_small x : 0 <= x <= SIZE_MAX -> to_size_t x = x.
Proof.
  unfold to_size_t, SIZE_MAX. intros H. apply Z.mod_small. lia.
Qed.

Lemma to_size_t_neg x : SSIZE_MIN <= x < 0 -> to_size_t x = x + 2 ^ 64.
Proof.
  unfold to_size_t, SSIZE_MIN. intros H.
  symmetry. apply (Z.mod_unique_pos _ _ (-1)); lia.
Qed.

(** On a value of type [ssize_t], the comparison with a [size_t] that
    fits [ssize_t] is the comparison of the values. *)
Lemma to_size_t_eqb x n :
  ssize_range x -> 0 <= n <= SSIZE_MAX -> (to_size_t x =? n) = (x =? n).
Proof.
  unfold ssize_range, SSIZE_MAX. intros Hx Hn.
  destruct (Z_lt_le_dec x 0) as [Hneg | Hpos].
  - rewrite to_size_t_neg by lia. unfold SSIZE_MIN in Hx.
    destruct (Z.eqb_spec (x + 2 ^ 64) n), (Z.eqb_spec x n); lia.
  - rewrite to_size_t_small; [done | unfold SIZE_MAX; lia].
Qed.

(** A non-negative count below the request never compares equal to it. *)
Lemma short_count_mismatch n size :
  0 <= n < size -> negb (to_size_t n =? size) = true.
Proof.
  intros H. pose proof (to_size_t_nonneg n ltac:(lia)).
  destruct (Z.eqb_spec (to_size_t n) size); [lia | done].
Qed.

Lemma byte_to_Z_range b : 0 <= byte_to_Z b < 256.
Proof.
  unfold byte_to_Z. pose proof (Byte.to_N_bounded b). lia.
Qed.

Lemma byte_to_of_Z z : byte_to_Z (byte_of_Z z) = z mod 256.
Proof.
  unfold byte_to_Z, byte_of_Z.
  assert (Hr : 0 <= z mod 256 < 256) by (apply Z.mod_pos_bound; lia).
  destruct (Byte.of_N (Z.to_N (z mod 256))) as [b|] eqn:E.
  - apply Byte.to_of_N in E. rewrite E. lia.
  - apply Byte.of_N_None_iff in E. lia.
Qed.

Lemma le_value_le_bytes v : 0 <= v <= UINT32_MAX -> le_value (le_bytes v) = v.
Proof.
  unfold UINT32_MAX. intros Hv. unfold le_value, le_bytes. simpl.
  rewrite !byte_to_of_Z, !Z.shiftr_div_pow2 by lia.
  change (2 ^ 8) with 256. change (2 ^ 16) with 65536.
  change (2 ^ 24) with 16777216.
  assert (E16 : v / 65536 = v / 256 / 256)
    by (rewrite Z.div_div by lia; reflexivity).
  assert (E24 : v / 16777216 = v / 256 / 256 / 256)
    by (rewrite !Z.div_div by lia; reflexivity).
  rewrite E16, E24.
  pose proof (Z.div_mod v 256 ltac:(lia)).
  pose proof (Z.div_mod (v / 256) 256 ltac:(lia)).
  pose proof (Z.div_mod (v / 256 / 256) 256 ltac:(lia)).
  pose proof (Z.div_mod (v / 256 / 256 / 256) 256 ltac:(lia)).
  assert (v / 256 / 256 / 256 / 256 = 0).
  { rewrite !Z.div_div by lia. apply Z.div_small. lia. }
  lia.
Qed.

Lemma decode_encode32 e v : 0 <= v <= UINT32_MAX -> decode32 e (encode32 e v) = v.
Proof.
  intros Hv. destruct e; unfold decode32, encode32.
  - by apply le_value_le_bytes.
  - rewrite rev_involutive. by apply le_value_le_bytes.
Qed.

Lemma length_encode32 e v : length (encode32 e v) = 4%nat.
Proof. by destruct e. Qed.

Lemma load32_overlay e data :
  length data = 4%nat ->
  load32 e (overlay data (indeterminate 4)) = Some (decode32 e data).
Proof.
  intros H. do 5 (destruct data as [|? data]; try discriminate H).
  reflexivity.
Qed.

(** ** Running programs *)

Lemma run_bind (os : OS) {A B : Type} (m : Prog A) (f : A -> Prog B) (w : world os) :
  run os (m ≫= f) w =
  match res_outcome (run os m w) with
  | Returned a =>
      let r2 := run os (f a) (res_world (run os m w)) in
      {| res_outcome := res_outcome r2;
         res_world := res_world r2;
         res_trace := res_trace (run os m w) ++ res_trace r2 |}
  | Exited s =>
      {| res_outcome := Exited s;
         res_world := res_world (run os m w);
         res_trace := res_trace (run os m w) |}
  | Undefined =>
      {| res_outcome := Undefined;
         res_world := res_world (run os m w);
         res_trace := res_trace (run os m w) |}
  end.
Proof.
  revert w. induction m as [a | s | | R c k IH]; intros w; cbn.
  - by destruct (run os (f a) w).
  - done.
  - done.
  - unfold mbind, Prog_bind in IH. rewrite IH.
    by destruct (res_outcome (run os (k (handle os c w).1) (handle os c w).2)).
Qed.

(** Name the answer of the next system call. *)
Ltac step_os :=
  match goal with
  | |- context [handle ?os ?c ?w] =>
      is_var w;
      let r := fresh "r" in
      let w' := fresh "w" in
      destruct (handle os c w) as [r w'];
      cbn [fst snd] in *
  end.

Ltac case_if :=
  match goal with
  | |- context [if ?b then _ else _] => destruct b eqn:?
  end.

(** Follow a program through every answer the system can give. *)
Ltac run_cases := repeat (cbn; first [step_os | case_if]); cbn.

Ltac unfold_raw :=
  unfold hostUtilsReadFromC0microSDPlus, hostUtilsWriteToC0microSDPlus,
    perror_if, call.

(** ** The raw transaction layer, against any operating system *)

Section RawAnyOS.

Variable os : OS.
Implicit Types (w : world os) (device : string) (size offset : Z).

(** The raw operations always return to their caller. *)
Lemma raw_read_returns w device destBuffer size offset :
  is_Some (returned (res_outcome
    (run os (hostUtilsReadFromC0microSDPlus device destBuffer size offset) w))).
Proof. unfold_raw. run_cases; by eexists. Qed.

Lemma raw_write_returns w device sourceBuffer size offset :
  is_Some (returned (res_outcome
    (run os (hostUtilsWriteToC0microSDPlus device sourceBuffer size offset) w))).
Proof. unfold_raw. run_cases; by eexists. Qed.

Lemma raw_read_no_leak w device destBuffer size offset :
  leaked_handles (res_trace
    (run os (hostUtilsReadFromC0microSDPlus device destBuffer size offset) w)) = [].
Proof. unfold_raw; unfold leaked_handles. run_cases; done. Qed.

Lemma raw_write_no_leak w device sourceBuffer size offset :
  leaked_handles (res_trace
    (run os (hostUtilsWriteToC0microSDPlus device sourceBuffer size offset) w)) = [].
Proof. unfold_raw; unfold leaked_handles. run_cases; done. Qed.

End RawAnyOS.
(** ** Failure results of the raw layer *)

Section RawErrors.
Variable os : OS.
Implicit Types (w : world os) (device : string) (size offset : Z).

Lemma raw_read_sentinel w device destBuffer size offset :
  let rd := run os (hostUtilsReadFromC0microSDPlus device destBuffer size offset) w in
  open_failed (res_trace rd) || seek_failed (res_trace rd)
    || transfer_error (res_trace rd) = true ->
  fst <$> returned (res_outcome rd) = Some (-1).
Proof.
  unfold_raw. unfold open_failed, seek_failed, transfer_error.
  run_cases; intros H; cbn in *; rewrite ?orb_false_r in *; try done.
  all: f_equal; lia.
Qed.

Lemma raw_write_sentinel w device sourceBuffer size offset :
  let wr := run os (hostUtilsWriteToC0microSDPlus device sourceBuffer size offset) w in
  open_failed (res_trace wr) || seek_failed (res_trace wr)
    || transfer_error (res_trace wr) = true ->
  returned (res_outcome wr) = Some (-1).
Proof.
  unfold_raw. unfold open_failed, seek_failed, transfer_error.
  run_cases; intros H; cbn in *; rewrite ?orb_false_r in *; try done.
  all: f_equal; lia.
Qed.

Ltac rewrite_tests :=
  repeat match goal with
    | E : (_ =? _) = _ |- _ => rewrite E; clear E
    end.

Ltac short_cases H :=
  cbn in H; rewrite ?orb_false_r in H; try done;
  apply andb_prop in H as [H ?%Z.ltb_lt];
  apply andb_prop in H as [?%Z.eqb_eq ?%Z.leb_le];
  try match goal with
    | E : negb (to_size_t _ =? _) = false |- _ =>
        rewrite short_count_mismatch in E by lia; discriminate E
    end;
  repeat split; try lia; f_equal; lia.

Lemma raw_read_short w device destBuffer size offset n :
  let rd := run os (hostUtilsReadFromC0microSDPlus device destBuffer size offset) w in
  short_transfer n (res_trace rd) = true ->
  fst <$> returned (res_outcome rd) = Some n ∧ 0 <= n < size
  ∧ diagnostics (res_trace rd) = ["Error reading data from the device"%string].
Proof.
  unfold_raw. unfold short_transfer, diagnostics.
  run_cases; intros H; short_cases H.
Qed.

Lemma raw_write_short w device sourceBuffer size offset n :
  let wr := run os (hostUtilsWriteToC0microSDPlus device sourceBuffer size offset) w in
  short_transfer n (res_trace wr) = true ->
  returned (res_outcome wr) = Some n ∧ 0 <= n < size
  ∧ diagnostics (res_trace wr) = ["Error writing data to the device"%string].
Proof.
  unfold_raw. unfold short_transfer, diagnostics.
  run_cases; intros H; short_cases H.
Qed.

(** Where the raw operations seek and how much they transfer. *)
Lemma raw_read_addressing w device destBuffer size offset :
  let tr := res_trace
    (run os (hostUtilsReadFromC0microSDPlus device destBuffer size offset) w) in
  seek_offsets tr = (if open_failed tr then [] else [offset])
  ∧ transfer_counts tr =
      (if open_failed tr || seek_failed tr then [] else [size]).
Proof.
  unfold_raw. unfold seek_offsets, transfer_counts, open_failed, seek_failed.
  run_cases; rewrite_tests; cbn; done.
Qed.

Lemma raw_write_addressing w device sourceBuffer size offset :
  let tr := res_trace
    (run os (hostUtilsWriteToC0microSDPlus device sourceBuffer size offset) w) in
  seek_offsets tr = (if open_failed tr then [] else [offset])
  ∧ transfer_counts tr =
      (if open_failed tr || seek_failed tr then [] else [size])
  ∧ written_data tr =
      (if open_failed tr || seek_failed tr then []
       else [take (Z.to_nat size) sourceBuffer]).
Proof.
  unfold_raw.
  unfold seek_offsets, transfer_counts, written_data, open_failed, seek_failed.
  run_cases; rewrite_tests; cbn; done.
Qed.

End RawErrors.

(** ** The register layer, against any operating system *)

Section RegisterAnyOS.

Variable os : OS.
Variable native : endianness.
Implicit Types (w : world os) (device : string).

(** A continuation that makes no system call adds nothing to the trace. *)
Lemma run_bind_trace {A B : Type} (m : Prog A) (f : A -> Prog B) w :
  (forall a w', res_trace (run os (f a) w') = []) ->
  res_trace (run os (m ≫= f) w) = res_trace (run os m w).
Proof.
  intros Hf. rewrite run_bind.
  destruct (res_outcome (run os m w)); cbn; [| done | done].
  by rewrite Hf, app_nil_r.
Qed.

(** The check [if (res != size) exit(EXIT_FAILURE)] after a raw
    transaction. *)
Lemma abort_after_raw {A B : Type} (raw : Prog A) (count : A -> Z) (size : Z)
    (k : A -> Prog B) (test : A -> bool) w :
  (forall a, ssize_range (count a) -> count a ≠ size -> test a = true) ->
  aborts_on_mismatch os w raw count size
    (a ← raw; if test a then Exit EXIT_FAILURE else k a).
Proof.
  intros Htest a Hraw Hrange Hne.
  rewrite run_bind, Hraw. cbn. rewrite (Htest a Hrange Hne). cbn.
  by rewrite app_nil_r.
Qed.

Lemma abort_then {A B C : Type} (raw : Prog A) (count : A -> Z) (size : Z)
    (op : Prog B) (f : B -> Prog C) w :
  aborts_on_mismatch os w raw count size op ->
  aborts_on_mismatch os w raw count size (op ≫= f).
Proof.
  intros Hop a Hraw Hrange Hne.
  by rewrite run_bind, (Hop a Hraw Hrange Hne).
Qed.

(** The unsigned comparison against [sizeof(uint32_t)]. *)
Lemma sizeof_test r :
  ssize_range r -> r ≠ sizeof_uint32 -> negb (to_size_t r =? sizeof_uint32) = true.
Proof.
  intros Hr Hne. rewrite to_size_t_eqb; [| done | by vm_compute].
  by destruct (Z.eqb_spec r sizeof_uint32).
Qed.

(** The signed comparison against the MMIO buffer size. *)
Lemma signed_test r size : r ≠ size -> negb (r =? size) = true.
Proof. intros Hne. by destruct (Z.eqb_spec r size). Qed.

Lemma read_mmio_aborts w device destBuffer :
  aborts_on_mismatch os w
    (hostUtilsReadFromC0microSDPlus device destBuffer
       kSignaloidSoCConstantsMMIOBufferSizeBytes
       kSignaloidSoCConstantsMMIOBufferOffset)
    fst kSignaloidSoCConstantsMMIOBufferSizeBytes
    (hostUtilsReadSignaloidSoCMMIOBuffer device destBuffer).
Proof.
  apply (abort_after_raw _ fst _ (fun rb => Ret rb.2)
           (fun rb => negb (rb.1 =? kSignaloidSoCConstantsMMIOBufferSizeBytes))).
  intros a _. apply signed_test.
Qed.

Lemma write_mmio_aborts w device sourceBuffer :
  aborts_on_mismatch os w
    (hostUtilsWriteToC0microSDPlus device sourceBuffer
       kSignaloidSoCConstantsMMIOBufferSizeBytes
       kSignaloidSoCConstantsMMIOBufferOffset)
    id kSignaloidSoCConstantsMMIOBufferSizeBytes
    (hostUtilsWriteSignaloidSoCMMIOBuffer device sourceBuffer).
Proof.
  apply (abort_after_raw _ id _ (fun _ => Ret tt)
           (fun res => negb (res =? kSignaloidSoCConstantsMMIOBufferSizeBytes))).
  intros a _. apply signed_test.
Qed.

(** The three register reads share one shape, as do the three writes. *)
Lemma read_register_aborts w device offset :
  aborts_on_mismatch os w
    (hostUtilsReadFromC0microSDPlus device (indeterminate 4) sizeof_uint32 offset)
    fst sizeof_uint32
    (rb ← hostUtilsReadFromC0microSDPlus device (indeterminate 4)
            sizeof_uint32 offset;
     if negb (to_size_t rb.1 =? sizeof_uint32)
     then Exit EXIT_FAILURE
     else match load32 native rb.2 with
          | Some v => Ret v
          | None => Undef
          end).
Proof.
  apply (abort_after_raw _ fst sizeof_uint32
           (fun rb => match load32 native rb.2 with
                      | Some v => Ret v
                      | None => Undef
                      end)
           (fun rb => negb (to_size_t rb.1 =? sizeof_uint32))).
  intros a. apply sizeof_test.
Qed.

Lemma write_register_aborts w device value offset :
  aborts_on_mismatch os w
    (hostUtilsWriteToC0microSDPlus device (encode32 native value)
       sizeof_uint32 offset)
    id sizeof_uint32
    (res ← hostUtilsWriteToC0microSDPlus device (encode32 native value)
             sizeof_uint32 offset;
     if negb (to_size_t res =? sizeof_uint32)
     then Exit EXIT_FAILURE
     else Ret tt).
Proof.
  apply (abort_after_raw _ id sizeof_uint32 (fun _ => Ret tt)
           (fun res => negb (to_size_t res =? sizeof_uint32))).
  intros a. apply sizeof_test.
Qed.

(** After the raw transaction a register operation makes no system call. *)
Lemma read_register_trace w device offset :
  res_trace (run os
    (rb ← hostUtilsReadFromC0microSDPlus device (indeterminate 4)
            sizeof_uint32 offset;
     if negb (to_size_t rb.1 =? sizeof_uint32)
     then Exit EXIT_FAILURE
     else match load32 native rb.2 with
          | Some v => Ret v
          | None => Undef
          end) w)
  = res_trace (run os
      (hostUtilsReadFromC0microSDPlus device (indeterminate 4)
         sizeof_uint32 offset) w).
Proof.
  apply run_bind_trace. intros a w'.
  destruct (negb _); [done |]. by destruct (load32 _ _).
Qed.

Lemma write_register_trace w device value offset :
  res_trace (run os
    (res ← hostUtilsWriteToC0microSDPlus device (encode32 native value)
             sizeof_uint32 offset;
     if negb (to_size_t res =? sizeof_uint32)
     then Exit EXIT_FAILURE
     else Ret tt) w)
  = res_trace (run os
      (hostUtilsWriteToC0microSDPlus device (encode32 native value)
         sizeof_uint32 offset) w).
Proof.
  apply run_bind_trace. intros a w'. cbn. by destruct (negb _).
Qed.

Lemma read_mmio_trace w device destBuffer :
  res_trace (run os (hostUtilsReadSignaloidSoCMMIOBuffer device destBuffer) w)
  = res_trace (run os
      (hostUtilsReadFromC0microSDPlus device destBuffer
         kSignaloidSoCConstantsMMIOBufferSizeBytes
         kSignaloidSoCConstantsMMIOBufferOffset) w).
Proof.
  apply run_bind_trace. intros a w'. cbn. by destruct (negb _).
Qed.

Lemma write_mmio_trace w device sourceBuffer :
  res_trace (run os (hostUtilsWriteSignaloidSoCMMIOBuffer device sourceBuffer) w)
  = res_trace (run os
      (hostUtilsWriteToC0microSDPlus device sourceBuffer
         kSignaloidSoCConstantsMMIOBufferSizeBytes
         kSignaloidSoCConstantsMMIOBufferOffset) w).
Proof.
  apply run_bind_trace. intros a w'. cbn. by destruct (negb _).
Qed.

Lemma read_register_transacts w device offset :
  transacts_at
    (res_trace (run os
      (rb ← hostUtilsReadFromC0microSDPlus device (indeterminate 4)
              sizeof_uint32 offset;
       if negb (to_size_t rb.1 =? sizeof_uint32)
       then Exit EXIT_FAILURE
       else match load32 native rb.2 with
            | Some v => Ret v
            | None => Undef
            end) w))
    offset 4.
Proof. rewrite read_register_trace. apply raw_read_addressing. Qed.

Lemma write_register_transacts w device value offset :
  transacts_at
    (res_trace (run os
      (res ← hostUtilsWriteToC0microSDPlus device (encode32 native value)
               sizeof_uint32 offset;
       if negb (to_size_t res =? sizeof_uint32)
       then Exit EXIT_FAILURE
       else Ret tt) w))
    offset 4.
Proof.
  rewrite write_register_trace.
  destruct (raw_write_addressing os w device (encode32 native value)
              sizeof_uint32 offset) as (Hs & Hc & _).
  by split.
Qed.

Lemma unpacked_get_trace w device :
  res_trace (run os (hostUtilsGetSignaloidSoCConfigRegisterUnpacked native device) w)
  = res_trace (run os (hostUtilsGetSignaloidSoCConfigRegister native device) w).
Proof. by apply run_bind_trace. Qed.

End RegisterAnyOS.

(** ** The file store *)

Section FileStore.

Implicit Types (w : fs_world) (f : file) (m : gmap Z byte) (tbl : gmap Z open_file).

Lemma fresh_fd_spec tbl fd :
  fresh_fd tbl = Some fd -> tbl !! fd = None ∧ 0 <= fd < OPEN_MAX.
Proof.
  unfold fresh_fd. intros H. apply find_some in H as [Hin Hfree].
  apply bool_decide_eq_true in Hfree.
  apply list_elem_of_In, elem_of_seqZ in Hin. split; [done | lia].
Qed.

Lemma fresh_fd_not_sentinel tbl fd : fresh_fd tbl = Some fd -> (fd =? -1) = false.
Proof.
  intros [_ H]%fresh_fd_spec. destruct (Z.eqb_spec fd (-1)); [lia | done].
Qed.

(** Bytes stored at [pos] are the bytes read back from [pos]. *)
Lemma read_store_bytes data : forall pos m,
  (fun i => default x00 (store_bytes pos data m !! i))
    <$> seqZ pos (Z.of_nat (length data)) = data.
Proof.
  induction data as [| b bs IH]; intros pos m; [done |].
  cbn [length store_bytes]. rewrite seqZ_cons by lia.
  rewrite fmap_cons, lookup_insert_eq. cbn [default]. f_equal.
  replace (Z.pred (Z.of_nat (S (length bs)))) with (Z.of_nat (length bs)) by lia.
  rewrite <- (IH (Z.succ pos) m) at 2.
  apply list_fmap_ext. intros k i Hi.
  apply lookup_seqZ in Hi as [-> _].
  rewrite lookup_insert_ne by lia.
  by replace (pos + 1) with (Z.succ pos) by lia.
Qed.

Lemma file_read_write f pos data :
  file_read (file_write f pos data) pos (Z.of_nat (length data)) = data.
Proof. apply read_store_bytes. Qed.

Lemma length_file_read f pos n : length (file_read f pos n) = Z.to_nat n.
Proof. unfold file_read. by rewrite length_fmap, length_seqZ. Qed.

End FileStore.
(** What each call does when its preconditions hold. *)

Section FileStoreCalls.

Implicit Types (w : fs_world) (f : file) (e : open_file).

Lemma fs_open_ok w path flags f fd :
  fs_files w !! path = Some f ->
  fresh_fd (fs_fds w) = Some fd ->
  fs_open path flags w =
    (fd, {| fs_files := fs_files w;
            fs_fds := <[fd := {| of_path := path;
                                 of_wronly := bool_decide (O_WRONLY ∈ flags);
                                 of_pos := 0 |}]> (fs_fds w);
            fs_stderr := fs_stderr w |}).
Proof. intros Hf Hfd. unfold fs_open. by rewrite Hf, Hfd. Qed.

Lemma fs_open_missing w path flags :
  fs_files w !! path = None -> fs_open path flags w = (-1, w).
Proof. intros Hf. unfold fs_open. by rewrite Hf. Qed.

Lemma fs_lseek_ok w fd e offset wh :
  fs_fds w !! fd = Some e ->
  0 <= offset <= OFF_MAX ->
  fs_lseek fd offset wh w =
    (offset, {| fs_files := fs_files w;
                fs_fds := <[fd := {| of_path := of_path e;
                                     of_wronly := of_wronly e;
                                     of_pos := offset |}]> (fs_fds w);
                fs_stderr := fs_stderr w |}).
Proof.
  intros He Hoff. unfold fs_lseek. rewrite He.
  destruct (Z.leb_spec 0 offset), (Z.leb_spec offset OFF_MAX); by try lia.
Qed.

Lemma fs_read_ok w fd e f count :
  fs_fds w !! fd = Some e ->
  of_wronly e = false ->
  fs_files w !! of_path e = Some f ->
  let n := Z.max 0 (Z.min (Z.min count SSIZE_MAX) (f_size f - of_pos e)) in
  fs_read fd count w =
    ((n, file_read f (of_pos e) n),
     {| fs_files := fs_files w;
        fs_fds := <[fd := {| of_path := of_path e;
                             of_wronly := of_wronly e;
                             of_pos := of_pos e + n |}]> (fs_fds w);
        fs_stderr := fs_stderr w |}).
Proof. intros He Hro Hf. unfold fs_read. by rewrite He, Hro, Hf. Qed.

Lemma fs_write_ok w fd e f data count :
  fs_fds w !! fd = Some e ->
  of_wronly e = true ->
  fs_files w !! of_path e = Some f ->
  let data' := take (Z.to_nat (Z.min count SSIZE_MAX)) data in
  let n := Z.of_nat (length data') in
  fs_write fd data count w =
    (n, {| fs_files := <[of_path e := file_write f (of_pos e) data']> (fs_files w);
           fs_fds := <[fd := {| of_path := of_path e;
                                of_wronly := of_wronly e;
                                of_pos := of_pos e + n |}]> (fs_fds w);
           fs_stderr := fs_stderr w |}).
Proof. intros He Hwo Hf. unfold fs_write. by rewrite He, Hwo, Hf. Qed.

Lemma fs_close_ok w fd e :
  fs_fds w !! fd = Some e ->
  fs_close fd w =
    (0, {| fs_files := fs_files w;
           fs_fds := delete fd (fs_fds w);
           fs_stderr := fs_stderr w |}).
Proof. intros He. unfold fs_close. by rewrite He. Qed.

End FileStoreCalls.

(** Simplify the projections of a world after a call. *)
Ltac fs_simpl :=
  cbn [fst snd fs_files fs_fds fs_stderr of_path of_wronly of_pos];
  rewrite ?insert_insert_eq.

(** ** Transactions against the file store *)

Section FileStoreRuns.
Implicit Types (w : fs_world) (f : file).


Lemma fs_raw_read_run w device f fd destBuffer size offset :
  fs_files w !! device = Some f ->
  fresh_fd (fs_fds w) = Some fd ->
  0 <= offset <= OFF_MAX ->
  let n := Z.max 0 (Z.min (Z.min size SSIZE_MAX) (f_size f - offset)) in
  let short := negb (to_size_t n =? size) in
  let msg := "Error reading data from the device"%string in
  run file_store
    (hostUtilsReadFromC0microSDPlus device destBuffer size offset) w =
  {| res_outcome := Returned (n, overlay (file_read f offset n) destBuffer);
     res_world := {| fs_files := fs_files w;
                     fs_fds := fs_fds w;
                     fs_stderr := if short then fs_stderr w ++ [msg]
                                  else fs_stderr w |};
     res_trace := [EvOpen device [O_RDONLY; O_SYNC; O_DSYNC] fd;
                   EvLseek fd offset SEEK_SET offset;
                   EvRead fd size n (file_read f offset n)]
                  ++ (if short then [EvPerror msg] else [])
                  ++ [EvClose fd 0] |}.
Proof.
  intros Hfile Hfresh Hoff n short msg.
  pose proof (fresh_fd_spec _ _ Hfresh) as [Hfree Hfd].
  pose proof (fresh_fd_not_sentinel _ _ Hfresh) as Hne.
  assert (Hseek : (offset =? -1) = false)
    by (destruct (Z.eqb_spec offset (-1)); [lia | done]).
  unfold_raw. cbn -[fresh_fd].
  rewrite (fs_open_ok _ _ _ _ _ Hfile Hfresh). fs_simpl. rewrite Hne. cbn.
  erewrite fs_lseek_ok; [| fs_simpl; apply lookup_insert_eq | done].
  fs_simpl. rewrite Hseek. cbn.
  erewrite fs_read_ok; [| fs_simpl; apply lookup_insert_eq | done | done].
  fs_simpl. fold n. fold short.
  destruct short; cbn.
  - unfold fs_perror. fs_simpl.
    erewrite fs_close_ok; [| fs_simpl; apply lookup_insert_eq].
    fs_simpl. by rewrite delete_insert_id.
  - erewrite fs_close_ok; [| fs_simpl; apply lookup_insert_eq].
    fs_simpl. by rewrite delete_insert_id.
Qed.


Lemma fs_raw_write_run w device f fd sourceBuffer size offset :
  fs_files w !! device = Some f ->
  fresh_fd (fs_fds w) = Some fd ->
  0 <= offset <= OFF_MAX ->
  0 <= size <= SSIZE_MAX ->
  (Z.to_nat size <= length sourceBuffer)%nat ->
  let data := take (Z.to_nat size) sourceBuffer in
  run file_store
    (hostUtilsWriteToC0microSDPlus device sourceBuffer size offset) w =
  {| res_outcome := Returned size;
     res_world := {| fs_files := <[device := file_write f offset data]> (fs_files w);
                     fs_fds := fs_fds w;
                     fs_stderr := fs_stderr w |};
     res_trace := [EvOpen device [O_WRONLY; O_SYNC; O_DSYNC] fd;
                   EvLseek fd offset SEEK_SET offset;
                   EvWrite fd data size size;
                   EvClose fd 0] |}.
Proof.
  intros Hfile Hfresh Hoff Hsize Hlen data.
  pose proof (fresh_fd_spec _ _ Hfresh) as [Hfree Hfd].
  pose proof (fresh_fd_not_sentinel _ _ Hfresh) as Hne.
  assert (Hseek : (offset =? -1) = false)
    by (destruct (Z.eqb_spec offset (-1)); [lia | done]).
  assert (Hdata : take (Z.to_nat (Z.min size SSIZE_MAX)) data = data).
  { unfold data. rewrite Z.min_l by lia. rewrite take_take. f_equal. lia. }
  assert (Hn : Z.of_nat (length data) = size).
  { unfold data. rewrite length_take_le by done. lia. }
  unfold_raw. cbn -[fresh_fd].
  rewrite (fs_open_ok _ _ _ _ _ Hfile Hfresh). fs_simpl. rewrite Hne. cbn.
  erewrite fs_lseek_ok; [| fs_simpl; apply lookup_insert_eq | done].
  fs_simpl. rewrite Hseek. cbn.
  erewrite fs_write_ok; [| fs_simpl; apply lookup_insert_eq | done | done].
  fs_simpl. fold data. rewrite Hdata, Hn.
  rewrite to_size_t_small by (unfold SIZE_MAX, SSIZE_MAX in *; lia).
  rewrite Z.eqb_refl. cbn.
  erewrite fs_close_ok; [| fs_simpl; apply lookup_insert_eq].
  fs_simpl. by rewrite delete_insert_id.
Qed.

(** A missing device: the sentinel, a diagnostic, and the world as it was
    but for the diagnostic. *)
Lemma fs_raw_read_missing w device destBuffer size offset :
  fs_files w !! device = None ->
  run file_store
    (hostUtilsReadFromC0microSDPlus device destBuffer size offset) w =
  {| res_outcome := Returned (-1, destBuffer);
     res_world := {| fs_files := fs_files w;
                     fs_fds := fs_fds w;
                     fs_stderr := fs_stderr w ++ ["Error opening device"%string] |};
     res_trace := [EvOpen device [O_RDONLY; O_SYNC; O_DSYNC] (-1);
                   EvPerror "Error opening device"] |}.
Proof.
  intros Hfile. unfold_raw. cbn -[fresh_fd].
  by rewrite (fs_open_missing _ _ _ Hfile).
Qed.

(** The descriptor table is the same after a raw transaction as before,
    whatever its outcome. *)
Lemma fs_raw_read_fds w device destBuffer size offset :
  fs_fds (res_world (run file_store
    (hostUtilsReadFromC0microSDPlus device destBuffer size offset) w)) = fs_fds w.
Proof.
  unfold_raw. cbn -[fresh_fd]. unfold fs_open.
  destruct (fs_files w !! device) as [f |] eqn:Hfile; [| done].
  destruct (fresh_fd (fs_fds w)) as [fd |] eqn:Hfresh; [| done].
  pose proof (fresh_fd_spec _ _ Hfresh) as [Hfree Hfd].
  fs_simpl. rewrite (fresh_fd_not_sentinel _ _ Hfresh). cbn.
  unfold fs_lseek. fs_simpl. rewrite lookup_insert_eq.
  destruct ((0 <=? offset) && (offset <=? OFF_MAX)) eqn:Hoff; fs_simpl.
  - destruct (offset =? -1) eqn:Hseek; cbn.
    + unfold fs_close. fs_simpl. rewrite lookup_insert_eq. fs_simpl.
      by rewrite delete_insert_id.
    + erewrite fs_read_ok; [| fs_simpl; apply lookup_insert_eq | done | done].
      fs_simpl. case_if; cbn; unfold fs_close; fs_simpl;
        rewrite lookup_insert_eq; fs_simpl; by rewrite delete_insert_id.
  - cbn. unfold fs_close. fs_simpl. rewrite lookup_insert_eq. fs_simpl.
    by rewrite delete_insert_id.
Qed.

Lemma fs_raw_write_fds w device sourceBuffer size offset :
  fs_fds (res_world (run file_store
    (hostUtilsWriteToC0microSDPlus device sourceBuffer size offset) w)) = fs_fds w.
Proof.
  unfold_raw. cbn -[fresh_fd]. unfold fs_open.
  destruct (fs_files w !! device) as [f |] eqn:Hfile; [| done].
  destruct (fresh_fd (fs_fds w)) as [fd |] eqn:Hfresh; [| done].
  pose proof (fresh_fd_spec _ _ Hfresh) as [Hfree Hfd].
  fs_simpl. rewrite (fresh_fd_not_sentinel _ _ Hfresh). cbn.
  unfold fs_lseek. fs_simpl. rewrite lookup_insert_eq.
  destruct ((0 <=? offset) && (offset <=? OFF_MAX)) eqn:Hoff; fs_simpl.
  - destruct (offset =? -1) eqn:Hseek; cbn.
    + unfold fs_close. fs_simpl. rewrite lookup_insert_eq. fs_simpl.
      by rewrite delete_insert_id.
    + erewrite fs_write_ok; [| fs_simpl; apply lookup_insert_eq | done | done].
      fs_simpl. case_if; cbn; unfold fs_close; fs_simpl;
        rewrite lookup_insert_eq; fs_simpl; by rewrite delete_insert_id.
  - cbn. unfold fs_close. fs_simpl. rewrite lookup_insert_eq. fs_simpl.
    by rewrite delete_insert_id.
Qed.

(** A register read of a device that holds the register: the shape
    shared by the config, status and boot-address reads. *)
Lemma fs_read_register_run native w device f fd offset :
  fs_files w !! device = Some f ->
  fresh_fd (fs_fds w) = Some fd ->
  0 <= offset <= OFF_MAX ->
  offset + 4 <= f_size f ->
  run file_store
    (rb ← hostUtilsReadFromC0microSDPlus device (indeterminate 4)
            sizeof_uint32 offset;
     if negb (to_size_t rb.1 =? sizeof_uint32)
     then Exit EXIT_FAILURE
     else match load32 native rb.2 with
          | Some v => Ret v
          | None => Undef
          end) w =
  {| res_outcome := Returned (decode32 native (file_read f offset 4));
     res_world := {| fs_files := fs_files w;
                     fs_fds := fs_fds w;
                     fs_stderr := fs_stderr w |};
     res_trace := [EvOpen device [O_RDONLY; O_SYNC; O_DSYNC] fd;
                   EvLseek fd offset SEEK_SET offset;
                   EvRead fd 4 4 (file_read f offset 4);
                   EvClose fd 0] |}.
Proof.
  intros Hfile Hfresh Hoff Hsize.
  rewrite run_bind, (fs_raw_read_run _ _ _ _ _ _ _ Hfile Hfresh Hoff).
  assert (Hn : Z.max 0 (Z.min (Z.min sizeof_uint32 SSIZE_MAX) (f_size f - offset)) = 4).
  { unfold sizeof_uint32, SSIZE_MAX. lia. }
  rewrite Hn. cbn [res_outcome res_world res_trace].
  change (negb (to_size_t 4 =? sizeof_uint32)) with false. cbn [negb fst snd].
  rewrite load32_overlay by (by rewrite length_file_read).
  cbn. done.
Qed.

(** A register write to a device that holds the register: the shape
    shared by the config, command and boot-address writes. *)
Lemma fs_write_register_run native w device f fd value offset :
  fs_files w !! device = Some f ->
  fresh_fd (fs_fds w) = Some fd ->
  0 <= offset <= OFF_MAX ->
  run file_store
    (res ← hostUtilsWriteToC0microSDPlus device (encode32 native value)
             sizeof_uint32 offset;
     if negb (to_size_t res =? sizeof_uint32)
     then Exit EXIT_FAILURE
     else Ret tt) w =
  {| res_outcome := Returned tt;
     res_world := {| fs_files := <[device := file_write f offset (encode32 native value)]>
                                   (fs_files w);
                     fs_fds := fs_fds w;
                     fs_stderr := fs_stderr w |};
     res_trace := [EvOpen device [O_WRONLY; O_SYNC; O_DSYNC] fd;
                   EvLseek fd offset SEEK_SET offset;
                   EvWrite fd (encode32 native value) 4 4;
                   EvClose fd 0] |}.
Proof.
  intros Hfile Hfresh Hoff.
  rewrite run_bind, (fs_raw_write_run _ _ _ _ _ _ _ Hfile Hfresh Hoff);
    [| by vm_compute | by rewrite length_encode32].
  cbn [res_outcome res_world res_trace].
  change (negb (to_size_t sizeof_uint32 =? sizeof_uint32)) with false.
  rewrite take_ge by (by rewrite length_encode32).
  cbn. done.
Qed.

End FileStoreRuns.

(** ** Indeterminate values are never used *)

Section Defined.

Variable os : OS.
Variable native : endianness.

(** Under the contract of [read], a register read either exits or
    returns a value: the local variable is fully written before it is
    used. *)
Lemma read_register_defined (w : world os) device offset :
  read_contract os ->
  res_outcome (run os
    (rb ← hostUtilsReadFromC0microSDPlus device (indeterminate 4)
            sizeof_uint32 offset;
     if negb (to_size_t rb.1 =? sizeof_uint32)
     then Exit EXIT_FAILURE
     else match load32 native rb.2 with
          | Some v => Ret v
          | None => Undef
          end) w) ≠ Undefined.
Proof.
  intros Hread. unfold_raw. cbn.
  step_os. case_if; cbn; [step_os; cbn; by case_if |].
  step_os. case_if; cbn; [step_os; cbn; step_os; cbn; by case_if |].
  destruct (Hread r sizeof_uint32 w1) as [Hrange Hlen].
  destruct (handle os (sys_read r sizeof_uint32) w1) as [[n data] w2].
  cbn [fst snd] in *.
  destruct (negb (to_size_t n =? sizeof_uint32)) eqn:Hn; cbn.
  - step_os. cbn. step_os. cbn. by rewrite Hn.
  - step_os. cbn. rewrite Hn.
    rewrite to_size_t_eqb in Hn by (done || by vm_compute).
    apply negb_false_iff, Z.eqb_eq in Hn. subst n.
    rewrite load32_overlay by (apply Hlen; by vm_compute).
    done.
Qed.

End Defined.

Lemma file_store_read_contract : read_contract file_store.
Proof.
  intros fd count w. cbn. unfold fs_read.
  destruct (fs_fds w !! fd) as [e |]; [| by vm_compute].
  destruct (of_wronly e); [by vm_compute |].
  destruct (fs_files w !! of_path e) as [f |]; [| by vm_compute].
  cbn. split.
  - unfold ssize_range, SSIZE_MIN, SSIZE_MAX. lia.
  - intros _. apply length_file_read.
Qed.

(** Under the contracts of [read] and [write] the count a raw
    transaction returns is an [ssize_t]. *)
Lemma raw_read_count_range (os : OS) (w : world os) device destBuffer size offset a :
  read_contract os ->
  res_outcome (run os
    (hostUtilsReadFromC0microSDPlus device destBuffer size offset) w)
    = Returned a ->
  ssize_range a.1.
Proof.
  intros Hread. unfold_raw. cbn.
  step_os. case_if; cbn; [intros [= <-]; by vm_compute |].
  step_os. case_if; cbn; [intros [= <-]; by vm_compute |].
  destruct (Hread r size w1) as [Hrange _].
  destruct (handle os (sys_read r size) w1) as [[n data] w2].
  cbn [fst snd] in *.
  case_if; cbn; by intros [= <-].
Qed.

Lemma raw_write_count_range (os : OS) (w : world os) device sourceBuffer size offset a :
  write_contract os ->
  res_outcome (run os
    (hostUtilsWriteToC0microSDPlus device sourceBuffer size offset) w)
    = Returned a ->
  ssize_range a.
Proof.
  intros Hwrite. unfold_raw. cbn.
  step_os. case_if; cbn; [intros [= <-]; by vm_compute |].
  step_os. case_if; cbn; [intros [= <-]; by vm_compute |].
  pose proof (Hwrite r (take (Z.to_nat size) sourceBuffer) size w1) as Hrange.
  destruct (handle os (sys_write r (take (Z.to_nat size) sourceBuffer) size) w1)
    as [n w2].
  cbn [fst snd] in *.
  case_if; cbn; by intros [= <-].
Qed.

Lemma file_store_write_contract : write_contract file_store.
Proof.
  intros fd data count w. cbn. unfold fs_write.
  destruct (fs_fds w !! fd) as [e |]; [| by vm_compute].
  destruct (of_wronly e); [| by vm_compute].
  destruct (fs_files w !! of_path e) as [f |]; [| by vm_compute].
  cbn. unfold ssize_range, SSIZE_MIN, SSIZE_MAX.
  rewrite length_take. lia.
Qed.

(** ** Registers on the file store *)

(** The packing of the four flags and its inverse. *)
Lemma config_unpack_pack rstn unlock_bitstream_section sw_led_enable sw_led :
  config_reg_unpack
    (config_reg_pack rstn unlock_bitstream_section sw_led_enable sw_led)
  = (rstn, unlock_bitstream_section, sw_led_enable, sw_led).
Proof.
  by destruct rstn, unlock_bitstream_section, sw_led_enable, sw_led.
Qed.

Lemma config_pack_range rstn unlock_bitstream_section sw_led_enable sw_led :
  0 <= config_reg_pack rstn unlock_bitstream_section sw_led_enable sw_led <= 15.
Proof.
  destruct rstn, unlock_bitstream_section, sw_led_enable, sw_led;
    vm_compute; split; discriminate.
Qed.

Lemma config_pack_high_bits rstn unlock_bitstream_section sw_led_enable sw_led i :
  4 <= i ->
  Z.testbit
    (config_reg_pack rstn unlock_bitstream_section sw_led_enable sw_led) i
  = false.
Proof.
  intros Hi.
  pose proof (config_pack_range rstn unlock_bitstream_section
                sw_led_enable sw_led) as Hr.
  destruct (Z.eq_dec
    (config_reg_pack rstn unlock_bitstream_section sw_led_enable sw_led) 0)
    as [-> | Hnz]; [apply Z.testbit_0_l |].
  apply Z.bits_above_log2; [lia |].
  apply Z.log2_lt_pow2; [lia |].
  apply Z.lt_le_trans with (2 ^ 4); [lia |].
  apply Z.pow_le_mono_r; lia.
Qed.

(** A register written is the register read back. *)
Lemma fs_register_write_read native (w : fs_world) device (f : file) fd value offset :
  fs_files w !! device = Some f ->
  fresh_fd (fs_fds w) = Some fd ->
  0 <= offset <= OFF_MAX ->
  0 <= value <= UINT32_MAX ->
  let wr := run file_store
    (res ← hostUtilsWriteToC0microSDPlus device (encode32 native value)
             sizeof_uint32 offset;
     if negb (to_size_t res =? sizeof_uint32)
     then Exit EXIT_FAILURE
     else Ret tt) w in
  let rd := run file_store
    (rb ← hostUtilsReadFromC0microSDPlus device (indeterminate 4)
            sizeof_uint32 offset;
     if negb (to_size_t rb.1 =? sizeof_uint32)
     then Exit EXIT_FAILURE
     else match load32 native rb.2 with
          | Some v => Ret v
          | None => Undef
          end) (res_world wr) in
  res_outcome wr = Returned tt ∧ res_outcome rd = Returned value.
Proof.
  intros Hfile Hfresh Hoff Hvalue wr rd. unfold rd, wr.
  rewrite (fs_write_register_run native _ _ _ _ _ _ Hfile Hfresh Hoff).
  cbn [res_outcome res_world]. split; [done |].
  erewrite fs_read_register_run;
    [| cbn; apply lookup_insert_eq | cbn; exact Hfresh | done |].
  - cbn [res_outcome]. f_equal.
    replace 4 with (Z.of_nat (length (encode32 native value)))
      by (by rewrite length_encode32).
    rewrite file_read_write. by apply decode_encode32.
  - cbn. rewrite length_encode32. lia.
Qed.

(** The status read of a device that holds the status register returns
    the word encoded by the four bytes at the status offset. *)
Lemma fs_get_status native (w : fs_world) device (f : file) fd v :
  fs_files w !! device = Some f ->
  fresh_fd (fs_fds w) = Some fd ->
  kSignaloidSoCConstantsStatusOffset + 4 <= f_size f ->
  0 <= v <= UINT32_MAX ->
  file_read f kSignaloidSoCConstantsStatusOffset 4 = encode32 native v ->
  res_outcome
    (run file_store (hostUtilsGetSignaloidSoCStatusRegister native device) w)
  = Returned v.
Proof.
  intros Hfile Hfresh Hsize Hv Hbytes.
  unfold hostUtilsGetSignaloidSoCStatusRegister.
  rewrite (fs_read_register_run native _ _ _ _ _ Hfile Hfresh);
    [| by vm_compute | done].
  cbn [res_outcome]. by rewrite Hbytes, decode_encode32.
Qed.

(** * Specified properties *)

(** ** Raw transaction layer *)

(** C1, as amended: against any operating system the raw read returns
    the sentinel -1 whenever the device cannot be opened, seeking fails,
    or the underlying [read] reports an OS-level error; when the
    underlying [read] transfers [n] bytes, fewer than requested, the
    raw read returns that count [n] (which is not -1 and not the
    requested size) after a diagnostic.  The raw write is symmetric. *)
Theorem raw_transaction_error_results
    (os : OS) (w : world os) device destBuffer sourceBuffer size offset :
  let rd := run os
    (hostUtilsReadFromC0microSDPlus device destBuffer size offset) w in
  let wr := run os
    (hostUtilsWriteToC0microSDPlus device sourceBuffer size offset) w in
  (open_failed (res_trace rd) || seek_failed (res_trace rd)
     || transfer_error (res_trace rd) = true ->
   fst <$> returned (res_outcome rd) = Some (-1))
  ∧ (forall n, short_transfer n (res_trace rd) = true ->
       fst <$> returned (res_outcome rd) = Some n
       ∧ 0 <= n < size
       ∧ diagnostics (res_trace rd) = ["Error reading data from the device"%string])
  ∧ (open_failed (res_trace wr) || seek_failed (res_trace wr)
       || transfer_error (res_trace wr) = true ->
     returned (res_outcome wr) = Some (-1))
  ∧ (forall n, short_transfer n (res_trace wr) = true ->
       returned (res_outcome wr) = Some n
       ∧ 0 <= n < size
       ∧ diagnostics (res_trace wr) = ["Error writing data to the device"%string]).
Proof.
  intros rd wr. repeat apply conj.
  - apply raw_read_sentinel.
  - intros n. apply raw_read_short.
  - apply raw_write_sentinel.
  - intros n. apply raw_write_short.
Qed.

(** A device of 16 zero bytes, and a read of 4 bytes at offset 14. *)
Lemma raw_transaction_error_results_witness :
  let w := single_device "/dev/sdb" (file_with 16 0 []) in
  fst <$> returned (res_outcome (run file_store
    (hostUtilsReadFromC0microSDPlus "/dev/none" (indeterminate 4) 4 14) w))
    = Some (-1)
  ∧ fst <$> returned (res_outcome (run file_store
      (hostUtilsReadFromC0microSDPlus "/dev/sdb" (indeterminate 4) 4 14) w))
      = Some 2.
Proof.
  intros w. split.
  - destruct (raw_transaction_error_results file_store w "/dev/none"
                (indeterminate 4) [] 4 14) as (Hsentinel & _).
    apply Hsentinel. reflexivity.
  - destruct (raw_transaction_error_results file_store w "/dev/sdb"
                (indeterminate 4) [] 4 14) as (_ & Hshort & _).
    apply (Hshort 2). reflexivity.
Defined.

(** C1, as stated, fails: on a 16-byte device a read of 4 bytes at
    offset 14 transfers 2 bytes, fewer than requested, and the raw read
    returns 2, not the sentinel. *)
Lemma raw_read_short_transfer_not_sentinel :
  let w := single_device "/dev/sdb" (file_with 16 0 []) in
  let rd := run file_store
    (hostUtilsReadFromC0microSDPlus "/dev/sdb" (indeterminate 4) 4 14) w in
  short_transfer 2 (res_trace rd) = true
  ∧ fst <$> returned (res_outcome rd) = Some 2
  ∧ fst <$> returned (res_outcome rd) ≠ Some (-1).
Proof. by vm_compute. Qed.

(** C5: on the file store, for an offset and size within the device
    and any bytes of that size, a raw write at the offset followed by a
    raw read of the same size at the same offset returns the bytes just
    written. *)
Theorem raw_write_read_roundtrip
    (w : fs_world) device (f : file) fd sourceBuffer destBuffer size offset :
  fs_files w !! device = Some f ->
  fresh_fd (fs_fds w) = Some fd ->
  f_size f <= OFF_MAX ->
  0 <= offset -> 0 <= size -> offset + size <= f_size f ->
  Z.of_nat (length sourceBuffer) = size ->
  let wr := run file_store
    (hostUtilsWriteToC0microSDPlus device sourceBuffer size offset) w in
  let rd := run file_store
    (hostUtilsReadFromC0microSDPlus device destBuffer size offset)
    (res_world wr) in
  res_outcome wr = Returned size
  ∧ res_outcome rd = Returned (size, overlay sourceBuffer destBuffer).
Proof.
  intros Hfile Hfresh Hmax Hoff Hsize Hin Hlen wr rd. unfold rd, wr.
  assert (Hoff' : 0 <= offset <= OFF_MAX) by lia.
  assert (Hsize' : 0 <= size <= SSIZE_MAX) by (unfold SSIZE_MAX, OFF_MAX in *; lia).
  rewrite (fs_raw_write_run _ _ _ _ _ _ _ Hfile Hfresh Hoff' Hsize') by lia.
  cbn [res_outcome res_world]. split; [done |].
  rewrite take_ge by lia.
  erewrite fs_raw_read_run;
    [| cbn; apply lookup_insert_eq | cbn; exact Hfresh | done].
  cbn [res_outcome f_size file_write].
  assert (Hn : Z.max 0 (Z.min (Z.min size SSIZE_MAX)
                 (Z.max (f_size f) (offset + Z.of_nat (length sourceBuffer)) - offset))
               = Z.of_nat (length sourceBuffer)) by lia.
  rewrite Hn. fold (file_write f offset sourceBuffer).
  by rewrite file_read_write, Hlen.
Qed.

Lemma raw_write_read_roundtrip_witness :
  let w := single_device "/dev/sdb" (file_with 16 0 [x11; x22]) in
  let wr := run file_store
    (hostUtilsWriteToC0microSDPlus "/dev/sdb" [xaa; xbb; xcc] 3 8) w in
  let rd := run file_store
    (hostUtilsReadFromC0microSDPlus "/dev/sdb" (indeterminate 4) 3 8)
    (res_world wr) in
  res_outcome wr = Returned 3
  ∧ res_outcome rd = Returned (3, [Some xaa; Some xbb; Some xcc; None]).
Proof.
  intros w.
  apply (raw_write_read_roundtrip w "/dev/sdb" (file_with 16 0 [x11; x22]) 0
           [xaa; xbb; xcc] (indeterminate 4) 3 8).
  - reflexivity.
  - reflexivity.
  - vm_compute. discriminate.
  - lia.
  - lia.
  - vm_compute. discriminate.
  - reflexivity.
Defined.

(** C6: on the file store, when fewer bytes than requested lie between
    the offset and the end of the device, the raw read returns the
    number of bytes actually read, non-negative and strictly smaller
    than the request, and flags the condition with a diagnostic on the
    error stream. *)
Theorem raw_read_short_of_store
    (w : fs_world) device (f : file) fd destBuffer size offset :
  fs_files w !! device = Some f ->
  fresh_fd (fs_fds w) = Some fd ->
  f_size f <= OFF_MAX ->
  0 <= offset <= OFF_MAX ->
  Z.max 0 (f_size f - offset) < size ->
  let rd := run file_store
    (hostUtilsReadFromC0microSDPlus device destBuffer size offset) w in
  let n := Z.max 0 (f_size f - offset) in
  res_outcome rd = Returned (n, overlay (file_read f offset n) destBuffer)
  ∧ 0 <= n < size
  ∧ diagnostics (res_trace rd) = ["Error reading data from the device"%string]
  ∧ fs_stderr (res_world rd)
    = fs_stderr w ++ ["Error reading data from the device"%string].
Proof.
  intros Hfile Hfresh Hmax Hoff Hshort rd n. unfold rd.
  rewrite (fs_raw_read_run _ _ _ _ _ _ _ Hfile Hfresh Hoff).
  assert (Hn : Z.max 0 (Z.min (Z.min size SSIZE_MAX) (f_size f - offset)) = n)
    by (unfold n, SSIZE_MAX, OFF_MAX in *; lia).
  rewrite Hn, short_count_mismatch by (unfold n; lia).
  cbn. repeat split; unfold n; lia.
Qed.

Lemma raw_read_short_of_store_witness :
  let w := single_device "/dev/sdb" (file_with 6 0 [x11; x22]) in
  let rd := run file_store
    (hostUtilsReadFromC0microSDPlus "/dev/sdb" (indeterminate 8) 8 4) w in
  res_outcome rd
    = Returned (2, [Some x00; Some x00; None; None; None; None; None; None])
  ∧ 0 <= 2 < 8
  ∧ diagnostics (res_trace rd) = ["Error reading data from the device"%string]
  ∧ fs_stderr (res_world rd) = ["Error reading data from the device"%string].
Proof.
  intros w.
  apply (raw_read_short_of_store w "/dev/sdb" (file_with 6 0 [x11; x22]) 0
           (indeterminate 8) 8 4).
  - reflexivity.
  - reflexivity.
  - vm_compute. discriminate.
  - vm_compute. split; discriminate.
  - reflexivity.
Defined.

(** C9: every raw read and every raw write, on every outcome (success,
    open failure, seek failure, short or failed transfer) and against
    any operating system, returns to its caller with every descriptor
    it obtained from [open] released by [close]: no handle is leaked.
    On the file store the descriptor table after the call is the table
    before it. *)
Theorem raw_transaction_closes_handle :
  (forall (os : OS) (w : world os) device destBuffer sourceBuffer size offset,
     let rd := run os
       (hostUtilsReadFromC0microSDPlus device destBuffer size offset) w in
     let wr := run os
       (hostUtilsWriteToC0microSDPlus device sourceBuffer size offset) w in
     is_Some (returned (res_outcome rd))
     ∧ leaked_handles (res_trace rd) = []
     ∧ is_Some (returned (res_outcome wr))
     ∧ leaked_handles (res_trace wr) = [])
  ∧ (forall (w : fs_world) device destBuffer sourceBuffer size offset,
       fs_fds (res_world (run file_store
         (hostUtilsReadFromC0microSDPlus device destBuffer size offset) w))
         = fs_fds w
       ∧ fs_fds (res_world (run file_store
         (hostUtilsWriteToC0microSDPlus device sourceBuffer size offset) w))
         = fs_fds w).
Proof.
  split.
  - intros os w device destBuffer sourceBuffer size offset rd wr.
    repeat split.
    + apply raw_read_returns.
    + apply raw_read_no_leak.
    + apply raw_write_returns.
    + apply raw_write_no_leak.
  - intros w device destBuffer sourceBuffer size offset. split.
    + apply fs_raw_read_fds.
    + apply fs_raw_write_fds.
Qed.

(** ** Register access layer *)

(** C3: for every register-level operation (MMIO buffer read and write,
    config get and set, packed and unpacked, command set, status get,
    boot-address get and set) and against any operating system, if the
    underlying raw transaction returns a count different from the
    requested size (the sentinel -1 included), the operation ends in
    [exit(EXIT_FAILURE)] immediately after that transaction: it returns
    nothing and makes no further system call. *)
Theorem register_operation_fatal_on_mismatch
    (os : OS) (native : endianness) (w : world os) (device : string)
    (destBuffer : list cell) (sourceBuffer : list byte) (value : Z)
    (rstn unlock_bitstream_section sw_led_enable sw_led : bool) :
  let raw_read := hostUtilsReadFromC0microSDPlus device (indeterminate 4)
                    sizeof_uint32 in
  let raw_write v := hostUtilsWriteToC0microSDPlus device (encode32 native v)
                       sizeof_uint32 in
  aborts_on_mismatch os w
    (hostUtilsReadFromC0microSDPlus device destBuffer
       kSignaloidSoCConstantsMMIOBufferSizeBytes
       kSignaloidSoCConstantsMMIOBufferOffset)
    fst kSignaloidSoCConstantsMMIOBufferSizeBytes
    (hostUtilsReadSignaloidSoCMMIOBuffer device destBuffer)
  ∧ aborts_on_mismatch os w
      (hostUtilsWriteToC0microSDPlus device sourceBuffer
         kSignaloidSoCConstantsMMIOBufferSizeBytes
         kSignaloidSoCConstantsMMIOBufferOffset)
      id kSignaloidSoCConstantsMMIOBufferSizeBytes
      (hostUtilsWriteSignaloidSoCMMIOBuffer device sourceBuffer)
  ∧ aborts_on_mismatch os w
      (raw_read kSignaloidSoCConstantsConfigOffset) fst sizeof_uint32
      (hostUtilsGetSignaloidSoCConfigRegister native device)
  ∧ aborts_on_mismatch os w
      (raw_write value kSignaloidSoCConstantsConfigOffset) id sizeof_uint32
      (hostUtilsSetSignaloidSoCConfigRegister native device value)
  ∧ aborts_on_mismatch os w
      (raw_read kSignaloidSoCConstantsConfigOffset) fst sizeof_uint32
      (hostUtilsGetSignaloidSoCConfigRegisterUnpacked native device)
  ∧ aborts_on_mismatch os w
      (raw_write (config_reg_pack rstn unlock_bitstream_section
                    sw_led_enable sw_led)
         kSignaloidSoCConstantsConfigOffset) id sizeof_uint32
      (hostUtilsSetSignaloidSoCConfigRegisterUnpacked native device
         rstn unlock_bitstream_section sw_led_enable sw_led)
  ∧ aborts_on_mismatch os w
      (raw_write value kSignaloidSoCConstantsCommandOffset) id sizeof_uint32
      (hostUtilsSetSignaloidSoCCommandRegister native device value)
  ∧ aborts_on_mismatch os w
      (raw_read kSignaloidSoCConstantsStatusOffset) fst sizeof_uint32
      (hostUtilsGetSignaloidSoCStatusRegister native device)
  ∧ aborts_on_mismatch os w
      (raw_read kSignaloidSoCConstantsBootAddressOffset) fst sizeof_uint32
      (hostUtilsGetSignaloidSoCBootAddressRegister native device)
  ∧ aborts_on_mismatch os w
      (raw_write value kSignaloidSoCConstantsBootAddressOffset) id sizeof_uint32
      (hostUtilsSetSignaloidSoCBootAddressRegister native device value).
Proof.
  intros raw_read raw_write. repeat apply conj.
  - apply read_mmio_aborts.
  - apply write_mmio_aborts.
  - apply read_register_aborts.
  - apply write_register_aborts.
  - apply abort_then, read_register_aborts.
  - apply write_register_aborts.
  - apply write_register_aborts.
  - apply read_register_aborts.
  - apply read_register_aborts.
  - apply write_register_aborts.
Qed.

(** No device at the path: the raw read of the status register returns
    -1, and the status read exits. *)
Lemma register_operation_fatal_on_mismatch_witness :
  let w := single_device "/dev/sdb" (file_with 16 0 []) in
  run file_store (hostUtilsGetSignaloidSoCStatusRegister LittleEndian "/dev/none") w
  = {| res_outcome := Exited EXIT_FAILURE;
       res_world := {| fs_files := fs_files w;
                       fs_fds := ∅;
                       fs_stderr := ["Error opening device"%string] |};
       res_trace := [EvOpen "/dev/none" [O_RDONLY; O_SYNC; O_DSYNC] (-1);
                     EvPerror "Error opening device"] |}.
Proof.
  intros w.
  destruct (register_operation_fatal_on_mismatch file_store LittleEndian w
              "/dev/none" [] [] 0 false false false false)
    as (_ & _ & _ & _ & _ & _ & _ & Hstatus & _).
  apply (Hstatus (-1, indeterminate 4)).
  - reflexivity.
  - vm_compute. split; discriminate.
  - vm_compute. discriminate.
Defined.

(** C8: the address map and the status enumeration have the values of
    the external interface, and, against any operating system, each
    typed operation issues its one transaction at the offset of its
    register (or of the MMIO buffer) and with that object's size. *)
Theorem address_map_values_and_dispatch :
  (kSignaloidSoCConstantsCommandOffset = 0x01000000
   ∧ kSignaloidSoCConstantsConfigOffset = 0x01000004
   ∧ kSignaloidSoCConstantsBootAddressOffset = 0x01000008
   ∧ kSignaloidSoCConstantsStatusOffset = 0x0100000C
   ∧ kSignaloidSoCConstantsMMIOBufferOffset = 0x01004000
   ∧ kSignaloidSoCConstantsMMIOBufferSizeBytes = 8192
   ∧ status_value kSignaloidSoCStatusWaitingForCommand = 0
   ∧ status_value kSignaloidSoCStatusCalculating = 1
   ∧ status_value kSignaloidSoCStatusDone = 2
   ∧ status_value kSignaloidSoCStatusInvalidCommand = 3)
  ∧ forall (os : OS) (native : endianness) (w : world os) (device : string)
      (destBuffer : list cell) (sourceBuffer : list byte) (value : Z)
      (rstn unlock_bitstream_section sw_led_enable sw_led : bool),
      let trace_of {A : Type} (op : Prog A) := res_trace (run os op w) in
      transacts_at
        (trace_of (hostUtilsReadSignaloidSoCMMIOBuffer device destBuffer))
        0x01004000 8192
      ∧ transacts_at
          (trace_of (hostUtilsWriteSignaloidSoCMMIOBuffer device sourceBuffer))
          0x01004000 8192
      ∧ transacts_at
          (trace_of (hostUtilsGetSignaloidSoCConfigRegister native device))
          0x01000004 4
      ∧ transacts_at
          (trace_of (hostUtilsSetSignaloidSoCConfigRegister native device value))
          0x01000004 4
      ∧ transacts_at
          (trace_of (hostUtilsGetSignaloidSoCConfigRegisterUnpacked native device))
          0x01000004 4
      ∧ transacts_at
          (trace_of (hostUtilsSetSignaloidSoCConfigRegisterUnpacked native device
                       rstn unlock_bitstream_section sw_led_enable sw_led))
          0x01000004 4
      ∧ transacts_at
          (trace_of (hostUtilsSetSignaloidSoCCommandRegister native device value))
          0x01000000 4
      ∧ transacts_at
          (trace_of (hostUtilsGetSignaloidSoCStatusRegister native device))
          0x0100000C 4
      ∧ transacts_at
          (trace_of (hostUtilsGetSignaloidSoCBootAddressRegister native device))
          0x01000008 4
      ∧ transacts_at
          (trace_of (hostUtilsSetSignaloidSoCBootAddressRegister native device value))
          0x01000008 4.
Proof.
  split; [by repeat split |].
  intros os native w device destBuffer sourceBuffer value
    rstn unlock_bitstream_section sw_led_enable sw_led trace_of.
  unfold trace_of.
  repeat match goal with |- _ ∧ _ => split end.
  - rewrite read_mmio_trace. apply raw_read_addressing.
  - rewrite write_mmio_trace.
    destruct (raw_write_addressing os w device sourceBuffer
                kSignaloidSoCConstantsMMIOBufferSizeBytes
                kSignaloidSoCConstantsMMIOBufferOffset) as (Hs & Hc & _).
    by split.
  - apply read_register_transacts.
  - apply write_register_transacts.
  - rewrite unpacked_get_trace. apply read_register_transacts.
  - apply write_register_transacts.
  - apply write_register_transacts.
  - apply read_register_transacts.
  - apply read_register_transacts.
  - apply write_register_transacts.
Qed.

(** C7: on the file store, if the four bytes at the status-register
    offset encode the 32-bit value 2 in the host's byte order, the
    status read succeeds and returns [kSignaloidSoCStatusDone]. *)
Theorem get_status_done native (w : fs_world) device (f : file) fd :
  fs_files w !! device = Some f ->
  fresh_fd (fs_fds w) = Some fd ->
  kSignaloidSoCConstantsStatusOffset + 4 <= f_size f ->
  file_read f kSignaloidSoCConstantsStatusOffset 4 = encode32 native 2 ->
  res_outcome
    (run file_store (hostUtilsGetSignaloidSoCStatusRegister native device) w)
  = Returned (status_value kSignaloidSoCStatusDone).
Proof.
  intros Hfile Hfresh Hsize Hbytes.
  by apply (fs_get_status native w device f fd 2).
Qed.

Lemma get_status_done_witness :
  let f := file_with 0x01006000 kSignaloidSoCConstantsStatusOffset
             (encode32 BigEndian 2) in
  res_outcome
    (run file_store (hostUtilsGetSignaloidSoCStatusRegister BigEndian "/dev/sdb")
       (single_device "/dev/sdb" f))
  = Returned (status_value kSignaloidSoCStatusDone).
Proof.
  intros f.
  apply (get_status_done BigEndian (single_device "/dev/sdb" f) "/dev/sdb" f 0).
  - reflexivity.
  - reflexivity.
  - vm_compute. discriminate.
  - reflexivity.
Defined.

(** C10: on the file store, for every 32-bit value [v] held at the
    status-register offset, in or out of the enumeration, the status
    read returns [v] itself: there is no range check, and a value that
    names no enumerator is returned like any other. *)
Theorem get_status_passes_raw_value native (w : fs_world) device (f : file) fd v :
  fs_files w !! device = Some f ->
  fresh_fd (fs_fds w) = Some fd ->
  kSignaloidSoCConstantsStatusOffset + 4 <= f_size f ->
  0 <= v <= UINT32_MAX ->
  file_read f kSignaloidSoCConstantsStatusOffset 4 = encode32 native v ->
  res_outcome
    (run file_store (hostUtilsGetSignaloidSoCStatusRegister native device) w)
  = Returned v
  ∧ (3 < v -> status_of_value v = None).
Proof.
  intros Hfile Hfresh Hsize Hv Hbytes. split.
  - by apply (fs_get_status native w device f fd v).
  - intros Hout. unfold status_of_value.
    destruct (Z.eqb_spec v 0), (Z.eqb_spec v 1), (Z.eqb_spec v 2),
      (Z.eqb_spec v 3); (lia || done).
Qed.

Lemma get_status_passes_raw_value_witness :
  let f := file_with 0x01006000 kSignaloidSoCConstantsStatusOffset
             (encode32 LittleEndian 0xDEADBEEF) in
  res_outcome
    (run file_store (hostUtilsGetSignaloidSoCStatusRegister LittleEndian "/dev/sdb")
       (single_device "/dev/sdb" f))
  = Returned 0xDEADBEEF
  ∧ status_of_value 0xDEADBEEF = None.
Proof.
  intros f.
  destruct (get_status_passes_raw_value LittleEndian
              (single_device "/dev/sdb" f) "/dev/sdb" f 0 0xDEADBEEF)
    as [Hret Hnone].
  - reflexivity.
  - reflexivity.
  - vm_compute. discriminate.
  - vm_compute. split; discriminate.
  - reflexivity.
  - split; [exact Hret | apply Hnone; lia].
Defined.

(** ** Config register flags *)

(** C2: unpacking is a left inverse of packing on all 16 combinations
    of the four flags; and on the file store, the word that the
    unpacked set writes is the packed word, and the unpacked get that
    follows it yields the same four flags. *)
Theorem config_register_pack_unpack_roundtrip :
  (forall rstn unlock_bitstream_section sw_led_enable sw_led : bool,
     config_reg_unpack
       (config_reg_pack rstn unlock_bitstream_section sw_led_enable sw_led)
     = (rstn, unlock_bitstream_section, sw_led_enable, sw_led))
  ∧ (forall native (w : fs_world) device (f : file) fd
       (rstn unlock_bitstream_section sw_led_enable sw_led : bool),
       fs_files w !! device = Some f ->
       fresh_fd (fs_fds w) = Some fd ->
       let set := run file_store
         (hostUtilsSetSignaloidSoCConfigRegisterUnpacked native device
            rstn unlock_bitstream_section sw_led_enable sw_led) w in
       let get := run file_store
         (hostUtilsGetSignaloidSoCConfigRegisterUnpacked native device)
         (res_world set) in
       res_outcome set = Returned tt
       ∧ written_data (res_trace set)
         = [encode32 native
              (config_reg_pack rstn unlock_bitstream_section sw_led_enable sw_led)]
       ∧ res_outcome get
         = Returned (rstn, unlock_bitstream_section, sw_led_enable, sw_led)).
Proof.
  split; [apply config_unpack_pack |].
  intros native w device f fd rstn unlock_bitstream_section sw_led_enable sw_led
    Hfile Hfresh set get.
  pose proof (config_pack_range rstn unlock_bitstream_section
                sw_led_enable sw_led) as Hr.
  destruct (fs_register_write_read native w device f fd
              (config_reg_pack rstn unlock_bitstream_section sw_led_enable sw_led)
              kSignaloidSoCConstantsConfigOffset Hfile Hfresh)
    as [Hset Hget]; [by vm_compute | unfold UINT32_MAX; lia |].
  split; [exact Hset |]. split.
  - unfold set, hostUtilsSetSignaloidSoCConfigRegisterUnpacked,
      hostUtilsSetSignaloidSoCConfigRegister.
    by rewrite (fs_write_register_run native _ _ _ _ _ _ Hfile Hfresh).
  - unfold get, hostUtilsGetSignaloidSoCConfigRegisterUnpacked.
    rewrite run_bind.
    unfold hostUtilsGetSignaloidSoCConfigRegister at 1.
    unfold set, hostUtilsSetSignaloidSoCConfigRegisterUnpacked,
      hostUtilsSetSignaloidSoCConfigRegister.
    rewrite Hget. cbn. by rewrite config_unpack_pack.
Qed.

Lemma config_register_pack_unpack_roundtrip_witness :
  let w := single_device "/dev/sdb" (file_with 0x01006000 0 []) in
  let set := run file_store
    (hostUtilsSetSignaloidSoCConfigRegisterUnpacked LittleEndian "/dev/sdb"
       true false true false) w in
  let get := run file_store
    (hostUtilsGetSignaloidSoCConfigRegisterUnpacked LittleEndian "/dev/sdb")
    (res_world set) in
  res_outcome set = Returned tt
  ∧ written_data (res_trace set) = [[x05; x00; x00; x00]]
  ∧ res_outcome get = Returned (true, false, true, false).
Proof.
  intros w.
  apply (proj2 config_register_pack_unpack_roundtrip LittleEndian w "/dev/sdb"
           (file_with 0x01006000 0 []) 0 true false true false).
  - reflexivity.
  - reflexivity.
Defined.

(** C4: for all four flags the packed word is at most 0b1111, so its
    bits 4 to 31 (and above) are 0; against any operating system the
    only bytes the unpacked set submits to [write] are that word's; and
    on the file store the config register read back after an unpacked
    set is the packed word, whatever the register held before: no
    reserved bit of the previous value survives. *)
Theorem config_pack_clears_reserved_bits :
  (forall rstn unlock_bitstream_section sw_led_enable sw_led : bool,
     let reg_val :=
       config_reg_pack rstn unlock_bitstream_section sw_led_enable sw_led in
     0 <= reg_val <= 15
     ∧ forall i, 4 <= i -> Z.testbit reg_val i = false)
  ∧ (forall (os : OS) native (w : world os) device
       (rstn unlock_bitstream_section sw_led_enable sw_led : bool),
       let tr := res_trace (run os
         (hostUtilsSetSignaloidSoCConfigRegisterUnpacked native device
            rstn unlock_bitstream_section sw_led_enable sw_led) w) in
       written_data tr =
         if open_failed tr || seek_failed tr then []
         else [encode32 native
                 (config_reg_pack rstn unlock_bitstream_section
                    sw_led_enable sw_led)])
  ∧ (forall native (w : fs_world) device (f : file) fd
       (rstn unlock_bitstream_section sw_led_enable sw_led : bool),
       fs_files w !! device = Some f ->
       fresh_fd (fs_fds w) = Some fd ->
       let set := run file_store
         (hostUtilsSetSignaloidSoCConfigRegisterUnpacked native device
            rstn unlock_bitstream_section sw_led_enable sw_led) w in
       res_outcome
         (run file_store (hostUtilsGetSignaloidSoCConfigRegister native device)
            (res_world set))
       = Returned
           (config_reg_pack rstn unlock_bitstream_section sw_led_enable sw_led)).
Proof.
  split; [| split].
  - intros rstn unlock_bitstream_section sw_led_enable sw_led reg_val. split.
    + apply config_pack_range.
    + intros i. apply config_pack_high_bits.
  - intros os native w device rstn unlock_bitstream_section sw_led_enable sw_led tr.
    unfold tr, hostUtilsSetSignaloidSoCConfigRegisterUnpacked,
      hostUtilsSetSignaloidSoCConfigRegister.
    rewrite write_register_trace.
    destruct (raw_write_addressing os w device
                (encode32 native
                   (config_reg_pack rstn unlock_bitstream_section
                      sw_led_enable sw_led))
                sizeof_uint32 kSignaloidSoCConstantsConfigOffset)
      as (_ & _ & Hdata).
    rewrite take_ge in Hdata by (by rewrite length_encode32).
    exact Hdata.
  - intros native w device f fd rstn unlock_bitstream_section sw_led_enable sw_led
      Hfile Hfresh set.
    pose proof (config_pack_range rstn unlock_bitstream_section
                  sw_led_enable sw_led) as Hr.
    destruct (fs_register_write_read native w device f fd
                (config_reg_pack rstn unlock_bitstream_section
                   sw_led_enable sw_led)
                kSignaloidSoCConstantsConfigOffset Hfile Hfresh)
      as [_ Hget]; [by vm_compute | unfold UINT32_MAX; lia |].
    exact Hget.
Qed.

(** A config register holding 0xFFFFFFFF reads 0b0101 after the unpacked
    set of (true, false, true, false). *)
Lemma config_pack_clears_reserved_bits_witness :
  let f := file_with 0x01006000 kSignaloidSoCConstantsConfigOffset
             [xff; xff; xff; xff] in
  let w := single_device "/dev/sdb" f in
  res_outcome
    (run file_store (hostUtilsGetSignaloidSoCConfigRegister LittleEndian "/dev/sdb") w)
  = Returned 0xFFFFFFFF
  ∧ res_outcome
      (run file_store (hostUtilsGetSignaloidSoCConfigRegister LittleEndian "/dev/sdb")
         (res_world (run file_store
            (hostUtilsSetSignaloidSoCConfigRegisterUnpacked LittleEndian "/dev/sdb"
               true false true false) w)))
    = Returned 5.
Proof.
  intros f w. split; [reflexivity |].
  apply (proj2 (proj2 config_pack_clears_reserved_bits) LittleEndian w "/dev/sdb"
           f 0 true false true false).
  - reflexivity.
  - reflexivity.
Defined.

(** * Further properties of the code *)

(** ** The raw layer, against any operating system *)

Section RawCalls.

Variable os : OS.
Implicit Types (w : world os) (device : string) (size offset : Z).

Lemma raw_read_calls w device destBuffer size offset :
  let tr := res_trace (run os
    (hostUtilsReadFromC0microSDPlus device destBuffer size offset) w) in
  reads_only device tr
  ∧ Forall (fun fd => obtained_descriptors tr = [fd]) (used_descriptors tr).
Proof.
  unfold_raw.
  unfold reads_only, opens, obtained_descriptors, used_descriptors, written_data.
  run_cases;
    repeat match goal with E : (_ =? -1) = _ |- _ => rewrite E end;
    cbn; repeat split; repeat constructor.
Qed.

Lemma raw_write_calls w device sourceBuffer size offset :
  let tr := res_trace (run os
    (hostUtilsWriteToC0microSDPlus device sourceBuffer size offset) w) in
  writes_only device tr
  ∧ Forall (fun fd => obtained_descriptors tr = [fd]) (used_descriptors tr).
Proof.
  unfold_raw.
  unfold writes_only, opens, obtained_descriptors, used_descriptors, read_data.
  run_cases;
    repeat match goal with E : (_ =? -1) = _ |- _ => rewrite E end;
    cbn; repeat split; repeat constructor.
Qed.

End RawCalls.

(** X1: against any operating system, the raw read opens the given
    path exactly once, read-only with [O_SYNC] and [O_DSYNC], makes
    every later call on the descriptor that [open] returned, and never
    calls [write]; the raw write opens write-only with the same flags
    and never calls [read]. *)
Theorem raw_transaction_call_discipline
    (os : OS) (w : world os) device destBuffer sourceBuffer size offset :
  let rd := res_trace (run os
    (hostUtilsReadFromC0microSDPlus device destBuffer size offset) w) in
  let wr := res_trace (run os
    (hostUtilsWriteToC0microSDPlus device sourceBuffer size offset) w) in
  (opens rd = [(device, [O_RDONLY; O_SYNC; O_DSYNC])]
   ∧ Forall (fun fd => obtained_descriptors rd = [fd]) (used_descriptors rd)
   ∧ written_data rd = [])
  ∧ (opens wr = [(device, [O_WRONLY; O_SYNC; O_DSYNC])]
     ∧ Forall (fun fd => obtained_descriptors wr = [fd]) (used_descriptors wr)
     ∧ read_data wr = []).
Proof.
  intros rd wr.
  destruct (raw_read_calls os w device destBuffer size offset)
    as [[Hopen Hwritten] Hfd].
  destruct (raw_write_calls os w device sourceBuffer size offset)
    as [[Hopen' Hread] Hfd'].
  done.
Qed.

(** X2: against any operating system, when the device cannot be opened
    or the seek fails, the raw read attempts no transfer, hands the
    destination buffer back as it was, returns -1 and prints exactly
    one diagnostic, naming the step that failed; likewise the raw
    write, which then submits nothing to the device. *)
Theorem raw_transaction_fails_before_transfer
    (os : OS) (w : world os) device destBuffer sourceBuffer size offset :
  let rd := run os
    (hostUtilsReadFromC0microSDPlus device destBuffer size offset) w in
  let wr := run os
    (hostUtilsWriteToC0microSDPlus device sourceBuffer size offset) w in
  let message (tr : list event) :=
    if open_failed tr then "Error opening device"%string
    else "Error seeking to target offset"%string in
  (open_failed (res_trace rd) || seek_failed (res_trace rd) = true ->
   res_outcome rd = Returned (-1, destBuffer)
   ∧ transfer_counts (res_trace rd) = []
   ∧ diagnostics (res_trace rd) = [message (res_trace rd)])
  ∧ (open_failed (res_trace wr) || seek_failed (res_trace wr) = true ->
     res_outcome wr = Returned (-1)
     ∧ transfer_counts (res_trace wr) = []
     ∧ written_data (res_trace wr) = []
     ∧ diagnostics (res_trace wr) = [message (res_trace wr)]).
Proof.
  unfold_raw.
  unfold open_failed, seek_failed, transfer_counts, written_data, diagnostics.
  split; run_cases; intros H; cbn in H;
    repeat match goal with E : (_ =? -1) = _ |- _ => rewrite E in * end;
    cbn in *; try discriminate H; by repeat split.
Qed.

Lemma raw_transaction_fails_before_transfer_witness :
  let w := single_device "/dev/sdb" (file_with 16 0 []) in
  res_outcome (run file_store
    (hostUtilsReadFromC0microSDPlus "/dev/sdb" (indeterminate 4) 4 (-8)) w)
  = Returned (-1, indeterminate 4)
  ∧ res_outcome (run file_store
      (hostUtilsWriteToC0microSDPlus "/dev/none" [x01; x02] 2 0) w)
    = Returned (-1).
Proof.
  intros w.
  destruct (raw_transaction_fails_before_transfer file_store w "/dev/sdb"
              (indeterminate 4) [] 4 (-8)) as [Hread _].
  destruct (raw_transaction_fails_before_transfer file_store w "/dev/none"
              [] [x01; x02] 2 0) as [_ Hwrite].
  split.
  - apply Hread. reflexivity.
  - apply Hwrite. reflexivity.
Defined.

(** X3: against any operating system that honours the contracts of
    [read] and [write], and for a requested size that fits [ssize_t],
    a raw transaction prints no diagnostic exactly when it returns the
    requested size: every other result, the sentinel and short counts
    alike, comes with a diagnostic. *)
Theorem raw_transaction_silent_iff_complete
    (os : OS) (w : world os) device destBuffer sourceBuffer size offset :
  read_contract os ->
  write_contract os ->
  0 <= size <= SSIZE_MAX ->
  let rd := run os
    (hostUtilsReadFromC0microSDPlus device destBuffer size offset) w in
  let wr := run os
    (hostUtilsWriteToC0microSDPlus device sourceBuffer size offset) w in
  (diagnostics (res_trace rd) = [] <->
   fst <$> returned (res_outcome rd) = Some size)
  ∧ (diagnostics (res_trace wr) = [] <-> returned (res_outcome wr) = Some size).
Proof.
  intros Hread Hwrite Hsize. unfold_raw. unfold diagnostics. split.
  - cbn. step_os. case_if; cbn; [split; [done | intros [= ?]; lia] |].
    step_os. case_if; cbn; [split; [done | intros [= ?]; lia] |].
    destruct (Hread r size w1) as [Hrange _].
    destruct (handle os (sys_read r size) w1) as [[n data] w2].
    cbn [fst snd] in *.
    rewrite to_size_t_eqb by done.
    destruct (Z.eqb_spec n size) as [-> | Hne]; cbn; [done |].
    split; [done | intros [= ?]; lia].
  - cbn. step_os. case_if; cbn; [split; [done | intros [= ?]; lia] |].
    step_os. case_if; cbn; [split; [done | intros [= ?]; lia] |].
    pose proof (Hwrite r (take (Z.to_nat size) sourceBuffer) size w1) as Hrange.
    destruct (handle os (sys_write r (take (Z.to_nat size) sourceBuffer) size) w1)
      as [n w2].
    cbn [fst snd] in *.
    rewrite to_size_t_eqb by done.
    destruct (Z.eqb_spec n size) as [-> | Hne]; cbn; [done |].
    split; [done | intros [= ?]; lia].
Qed.

Lemma raw_transaction_silent_iff_complete_witness :
  let w := single_device "/dev/sdb" (file_with 16 0 [x11; x22]) in
  let rd := run file_store
    (hostUtilsReadFromC0microSDPlus "/dev/sdb" (indeterminate 2) 2 0) w in
  diagnostics (res_trace rd) = []
  <-> fst <$> returned (res_outcome rd) = Some 2.
Proof.
  intros w.
  apply (raw_transaction_silent_iff_complete file_store w "/dev/sdb"
           (indeterminate 2) [] 2 0).
  - apply file_store_read_contract.
  - apply file_store_write_contract.
  - vm_compute. split; discriminate.
Defined.

(** X4: against any operating system that honours the contract of
    [read], a raw read that returns a count [n >= 0] has stored exactly
    the [n] bytes that [read] delivered at the start of the destination
    buffer and left the rest of the buffer as it was; a buffer of at
    least [n] cells keeps its length. *)
Theorem raw_read_fills_prefix_only
    (os : OS) (w : world os) device destBuffer size offset n buffer :
  read_contract os ->
  res_outcome (run os
    (hostUtilsReadFromC0microSDPlus device destBuffer size offset) w)
    = Returned (n, buffer) ->
  0 <= n ->
  (fun data : list byte => Some <$> data) <$> read_data (res_trace (run os
    (hostUtilsReadFromC0microSDPlus device destBuffer size offset) w))
    = [take (Z.to_nat n) buffer]
  ∧ drop (Z.to_nat n) buffer = drop (Z.to_nat n) destBuffer
  ∧ ((Z.to_nat n <= length destBuffer)%nat -> length buffer = length destBuffer).
Proof.
  intros Hread. unfold_raw. unfold read_data. cbn.
  step_os. case_if; cbn; [intros [= <- _]; lia |].
  step_os. case_if; cbn; [intros [= <- _]; lia |].
  destruct (Hread r size w1) as [_ Hlen].
  destruct (handle os (sys_read r size) w1) as [[m data] w2].
  cbn [fst snd] in *.
  assert (Hgoal : 0 <= m ->
    [Some <$> data] = [take (Z.to_nat m) (overlay data destBuffer)]
    ∧ drop (Z.to_nat m) (overlay data destBuffer) = drop (Z.to_nat m) destBuffer
    ∧ ((Z.to_nat m <= length destBuffer)%nat ->
       length (overlay data destBuffer) = length destBuffer)).
  { intros Hm. rewrite <- (Hlen Hm). unfold overlay. repeat split.
    - rewrite take_app_length'; [done | by rewrite length_fmap].
    - rewrite drop_app_length'; [done | by rewrite length_fmap].
    - intros Hcap. rewrite length_app, length_fmap, length_drop. lia. }
  case_if; cbn; intros [= <- <-] Hm; by apply Hgoal.
Qed.

Lemma raw_read_fills_prefix_only_witness :
  let w := single_device "/dev/sdb" (file_with 16 0 [x11; x22]) in
  let buffer := [Some x11; Some x22; Some x00; None; None] in
  (fun data : list byte => Some <$> data) <$> read_data (res_trace (run file_store
    (hostUtilsReadFromC0microSDPlus "/dev/sdb" (indeterminate 5) 3 0) w))
    = [take 3 buffer]
  ∧ drop 3 buffer = drop 3 (indeterminate 5)
  ∧ ((3 <= length (indeterminate 5))%nat
     -> length buffer = length (indeterminate 5)).
Proof.
  intros w buffer.
  apply (raw_read_fills_prefix_only file_store w "/dev/sdb"
           (indeterminate 5) 3 0 3 buffer).
  - apply file_store_read_contract.
  - reflexivity.
  - lia.
Defined.

(** ** The register layer, against any operating system *)

Section RegisterReturns.

Variable os : OS.
Variable native : endianness.
Implicit Types (w : world os) (device : string).

(** The check [if (res != size) exit(EXIT_FAILURE)] passed. *)
Lemma return_after_raw {A B : Type} (raw : Prog A) (count : A -> Z) (size : Z)
    (result : A -> option B) (k : A -> Prog B) (test : A -> bool) w :
  (forall a, count a = size -> test a = false) ->
  (forall a b, result a = Some b -> k a = Ret b) ->
  returns_on_match os w raw count size result
    (a ← raw; if test a then Exit EXIT_FAILURE else k a).
Proof.
  intros Htest Hk a b Hraw Hcount Hres.
  rewrite run_bind, Hraw. cbn. rewrite (Htest a Hcount), (Hk a b Hres). cbn.
  by rewrite app_nil_r.
Qed.

Lemma return_then {A B C : Type} (raw : Prog A) (count : A -> Z) (size : Z)
    (result : A -> option B) (op : Prog B) (f : B -> C) w :
  returns_on_match os w raw count size result op ->
  returns_on_match os w raw count size (fun a => f <$> result a)
    (b ← op; Ret (f b)).
Proof.
  intros Hop a c Hraw Hcount Hres.
  destruct (result a) as [b |] eqn:Hb; [| done]. injection Hres as <-.
  rewrite run_bind, (Hop a b Hraw Hcount Hb). cbn. by rewrite app_nil_r.
Qed.

Lemma read_register_returns w device offset :
  returns_on_match os w
    (hostUtilsReadFromC0microSDPlus device (indeterminate 4) sizeof_uint32 offset)
    fst sizeof_uint32 (fun rb => load32 native rb.2)
    (rb ← hostUtilsReadFromC0microSDPlus device (indeterminate 4)
            sizeof_uint32 offset;
     if negb (to_size_t rb.1 =? sizeof_uint32)
     then Exit EXIT_FAILURE
     else match load32 native rb.2 with
          | Some v => Ret v
          | None => Undef
          end).
Proof.
  apply (return_after_raw _ fst sizeof_uint32 (fun rb => load32 native rb.2)
           (fun rb => match load32 native rb.2 with
                      | Some v => Ret v
                      | None => Undef
                      end)
           (fun rb => negb (to_size_t rb.1 =? sizeof_uint32))).
  - by intros a ->.
  - by intros a b ->.
Qed.

Lemma write_register_returns w device value offset :
  returns_on_match os w
    (hostUtilsWriteToC0microSDPlus device (encode32 native value)
       sizeof_uint32 offset)
    id sizeof_uint32 (fun _ => Some tt)
    (res ← hostUtilsWriteToC0microSDPlus device (encode32 native value)
             sizeof_uint32 offset;
     if negb (to_size_t res =? sizeof_uint32)
     then Exit EXIT_FAILURE
     else Ret tt).
Proof.
  apply (return_after_raw _ id sizeof_uint32 (fun _ => Some tt)
           (fun _ => Ret tt)
           (fun res => negb (to_size_t res =? sizeof_uint32))).
  - intros a Ha. unfold id in Ha. by subst a.
  - by intros a [] _.
Qed.

Lemma read_mmio_returns w device destBuffer :
  returns_on_match os w
    (hostUtilsReadFromC0microSDPlus device destBuffer
       kSignaloidSoCConstantsMMIOBufferSizeBytes
       kSignaloidSoCConstantsMMIOBufferOffset)
    fst kSignaloidSoCConstantsMMIOBufferSizeBytes (fun rb => Some rb.2)
    (hostUtilsReadSignaloidSoCMMIOBuffer device destBuffer).
Proof.
  apply (return_after_raw _ fst _ (fun rb => Some rb.2) (fun rb => Ret rb.2)
           (fun rb => negb (rb.1 =? kSignaloidSoCConstantsMMIOBufferSizeBytes))).
  - by intros a ->.
  - by intros a b [= <-].
Qed.

Lemma write_mmio_returns w device sourceBuffer :
  returns_on_match os w
    (hostUtilsWriteToC0microSDPlus device sourceBuffer
       kSignaloidSoCConstantsMMIOBufferSizeBytes
       kSignaloidSoCConstantsMMIOBufferOffset)
    id kSignaloidSoCConstantsMMIOBufferSizeBytes (fun _ => Some tt)
    (hostUtilsWriteSignaloidSoCMMIOBuffer device sourceBuffer).
Proof.
  apply (return_after_raw _ id _ (fun _ => Some tt) (fun _ => Ret tt)
           (fun res => negb (res =? kSignaloidSoCConstantsMMIOBufferSizeBytes))).
  - intros a Ha. unfold id in Ha. by subst a.
  - by intros a [] _.
Qed.

End RegisterReturns.

(** X5: against any operating system, each register-level operation
    whose raw transaction returns the requested size returns to its
    caller right after that transaction, with no further system call:
    the setters and the MMIO write return nothing, the MMIO read the
    buffer as the raw read left it, the getters the 32-bit word held by
    the four bytes read, and the unpacked get that word's four flags. *)
Theorem register_operation_returns_on_match
    (os : OS) (native : endianness) (w : world os) (device : string)
    (destBuffer : list cell) (sourceBuffer : list byte) (value : Z)
    (rstn unlock_bitstream_section sw_led_enable sw_led : bool) :
  let raw_read := hostUtilsReadFromC0microSDPlus device (indeterminate 4)
                    sizeof_uint32 in
  let raw_write v := hostUtilsWriteToC0microSDPlus device (encode32 native v)
                       sizeof_uint32 in
  let word (rb : Z * list cell) := load32 native rb.2 in
  let done (res : Z) := Some tt in
  returns_on_match os w
    (hostUtilsReadFromC0microSDPlus device destBuffer
       kSignaloidSoCConstantsMMIOBufferSizeBytes
       kSignaloidSoCConstantsMMIOBufferOffset)
    fst kSignaloidSoCConstantsMMIOBufferSizeBytes (fun rb => Some rb.2)
    (hostUtilsReadSignaloidSoCMMIOBuffer device destBuffer)
  ∧ returns_on_match os w
      (hostUtilsWriteToC0microSDPlus device sourceBuffer
         kSignaloidSoCConstantsMMIOBufferSizeBytes
         kSignaloidSoCConstantsMMIOBufferOffset)
      id kSignaloidSoCConstantsMMIOBufferSizeBytes done
      (hostUtilsWriteSignaloidSoCMMIOBuffer device sourceBuffer)
  ∧ returns_on_match os w
      (raw_read kSignaloidSoCConstantsConfigOffset) fst sizeof_uint32 word
      (hostUtilsGetSignaloidSoCConfigRegister native device)
  ∧ returns_on_match os w
      (raw_write value kSignaloidSoCConstantsConfigOffset) id sizeof_uint32 done
      (hostUtilsSetSignaloidSoCConfigRegister native device value)
  ∧ returns_on_match os w
      (raw_read kSignaloidSoCConstantsConfigOffset) fst sizeof_uint32
      (fun rb => config_reg_unpack <$> word rb)
      (hostUtilsGetSignaloidSoCConfigRegisterUnpacked native device)
  ∧ returns_on_match os w
      (raw_write (config_reg_pack rstn unlock_bitstream_section
                    sw_led_enable sw_led)
         kSignaloidSoCConstantsConfigOffset) id sizeof_uint32 done
      (hostUtilsSetSignaloidSoCConfigRegisterUnpacked native device
         rstn unlock_bitstream_section sw_led_enable sw_led)
  ∧ returns_on_match os w
      (raw_write value kSignaloidSoCConstantsCommandOffset) id sizeof_uint32 done
      (hostUtilsSetSignaloidSoCCommandRegister native device value)
  ∧ returns_on_match os w
      (raw_read kSignaloidSoCConstantsStatusOffset) fst sizeof_uint32 word
      (hostUtilsGetSignaloidSoCStatusRegister native device)
  ∧ returns_on_match os w
      (raw_read kSignaloidSoCConstantsBootAddressOffset) fst sizeof_uint32 word
      (hostUtilsGetSignaloidSoCBootAddressRegister native device)
  ∧ returns_on_match os w
      (raw_write value kSignaloidSoCConstantsBootAddressOffset) id sizeof_uint32
      done
      (hostUtilsSetSignaloidSoCBootAddressRegister native device value).
Proof.
  intros raw_read raw_write word done. repeat apply conj.
  - apply read_mmio_returns.
  - apply write_mmio_returns.
  - apply read_register_returns.
  - apply write_register_returns.
  - apply (return_then os _ fst sizeof_uint32 word
             (hostUtilsGetSignaloidSoCConfigRegister native device)
             config_reg_unpack).
    apply read_register_returns.
  - apply write_register_returns.
  - apply write_register_returns.
  - apply read_register_returns.
  - apply read_register_returns.
  - apply write_register_returns.
Qed.

(** The boot-address register holds 0x00180000: the raw read returns 4
    and the four bytes, and the getter returns the word. *)
Lemma register_operation_returns_on_match_witness :
  let f := file_with 0x01006000 kSignaloidSoCConstantsBootAddressOffset
             (encode32 LittleEndian 0x00180000) in
  let w := single_device "/dev/sdb" f in
  res_outcome (run file_store
    (hostUtilsGetSignaloidSoCBootAddressRegister LittleEndian "/dev/sdb") w)
  = Returned 0x00180000.
Proof.
  intros f w.
  destruct (register_operation_returns_on_match file_store LittleEndian w
              "/dev/sdb" [] [] 0 false false false false)
    as (_ & _ & _ & _ & _ & _ & _ & _ & Hboot & _).
  rewrite (Hboot (4, Some <$> encode32 LittleEndian 0x00180000) 0x00180000).
  - reflexivity.
  - reflexivity.
  - reflexivity.
  - reflexivity.
Defined.

(** X6: against any operating system, every register-level operation
    leaves no descriptor open, whether it returns or ends the process:
    on the fatal path the descriptor is closed before [exit]. *)
Theorem register_operation_closes_handle
    (os : OS) (native : endianness) (w : world os) (device : string)
    (destBuffer : list cell) (sourceBuffer : list byte) (value : Z)
    (rstn unlock_bitstream_section sw_led_enable sw_led : bool) :
  let leaks {A : Type} (op : Prog A) := leaked_handles (res_trace (run os op w)) in
  leaks (hostUtilsReadSignaloidSoCMMIOBuffer device destBuffer) = []
  ∧ leaks (hostUtilsWriteSignaloidSoCMMIOBuffer device sourceBuffer) = []
  ∧ leaks (hostUtilsGetSignaloidSoCConfigRegister native device) = []
  ∧ leaks (hostUtilsSetSignaloidSoCConfigRegister native device value) = []
  ∧ leaks (hostUtilsGetSignaloidSoCConfigRegisterUnpacked native device) = []
  ∧ leaks (hostUtilsSetSignaloidSoCConfigRegisterUnpacked native device
             rstn unlock_bitstream_section sw_led_enable sw_led) = []
  ∧ leaks (hostUtilsSetSignaloidSoCCommandRegister native device value) = []
  ∧ leaks (hostUtilsGetSignaloidSoCStatusRegister native device) = []
  ∧ leaks (hostUtilsGetSignaloidSoCBootAddressRegister native device) = []
  ∧ leaks (hostUtilsSetSignaloidSoCBootAddressRegister native device value) = [].
Proof.
  intros leaks. unfold leaks.
  unfold hostUtilsGetSignaloidSoCConfigRegister,
    hostUtilsSetSignaloidSoCConfigRegisterUnpacked,
    hostUtilsSetSignaloidSoCConfigRegister,
    hostUtilsSetSignaloidSoCCommandRegister,
    hostUtilsGetSignaloidSoCStatusRegister,
    hostUtilsGetSignaloidSoCBootAddressRegister,
    hostUtilsSetSignaloidSoCBootAddressRegister.
  rewrite unpacked_get_trace, read_mmio_trace, write_mmio_trace.
  unfold hostUtilsGetSignaloidSoCConfigRegister.
  rewrite !read_register_trace, !write_register_trace.
  repeat split; first [apply raw_read_no_leak | apply raw_write_no_leak].
Qed.

(** X7: against any operating system, each getter and the MMIO read
    open the device once, read-only, and never call [write]; each
    setter and the MMIO write open it once, write-only, and never call
    [read].  The unpacked set in particular does not read the register
    it overwrites. *)
Theorem register_operation_direction
    (os : OS) (native : endianness) (w : world os) (device : string)
    (destBuffer : list cell) (sourceBuffer : list byte) (value : Z)
    (rstn unlock_bitstream_section sw_led_enable sw_led : bool) :
  let trace_of {A : Type} (op : Prog A) := res_trace (run os op w) in
  reads_only device
    (trace_of (hostUtilsReadSignaloidSoCMMIOBuffer device destBuffer))
  ∧ writes_only device
      (trace_of (hostUtilsWriteSignaloidSoCMMIOBuffer device sourceBuffer))
  ∧ reads_only device
      (trace_of (hostUtilsGetSignaloidSoCConfigRegister native device))
  ∧ writes_only device
      (trace_of (hostUtilsSetSignaloidSoCConfigRegister native device value))
  ∧ reads_only device
      (trace_of (hostUtilsGetSignaloidSoCConfigRegisterUnpacked native device))
  ∧ writes_only device
      (trace_of (hostUtilsSetSignaloidSoCConfigRegisterUnpacked native device
                   rstn unlock_bitstream_section sw_led_enable sw_led))
  ∧ writes_only device
      (trace_of (hostUtilsSetSignaloidSoCCommandRegister native device value))
  ∧ reads_only device
      (trace_of (hostUtilsGetSignaloidSoCStatusRegister native device))
  ∧ reads_only device
      (trace_of (hostUtilsGetSignaloidSoCBootAddressRegister native device))
  ∧ writes_only device
      (trace_of (hostUtilsSetSignaloidSoCBootAddressRegister native device value)).
Proof.
  intros trace_of. unfold trace_of.
  unfold hostUtilsGetSignaloidSoCConfigRegister,
    hostUtilsSetSignaloidSoCConfigRegisterUnpacked,
    hostUtilsSetSignaloidSoCConfigRegister,
    hostUtilsSetSignaloidSoCCommandRegister,
    hostUtilsGetSignaloidSoCStatusRegister,
    hostUtilsGetSignaloidSoCBootAddressRegister,
    hostUtilsSetSignaloidSoCBootAddressRegister.
  rewrite unpacked_get_trace, read_mmio_trace, write_mmio_trace.
  unfold hostUtilsGetSignaloidSoCConfigRegister.
  rewrite !read_register_trace, !write_register_trace.
  repeat match goal with |- _ ∧ _ => split end;
    first [apply raw_read_calls | apply raw_write_calls].
Qed.

(** A 4-byte object holds a 32-bit value. *)
Lemma load32_range e obj v : load32 e obj = Some v -> 0 <= v <= UINT32_MAX.
Proof.
  unfold load32. intros H.
  repeat (destruct obj as [| [?b |] obj]; try discriminate H).
  injection H as <-.
  pose proof (byte_to_Z_range b). pose proof (byte_to_Z_range b0).
  pose proof (byte_to_Z_range b1). pose proof (byte_to_Z_range b2).
  unfold UINT32_MAX. destruct e; cbn; lia.
Qed.

(** What a register read can end in, under the contract of [read]. *)
Lemma read_register_outcome (os : OS) native (w : world os) device offset :
  read_contract os ->
  let r := res_outcome (run os
    (rb ← hostUtilsReadFromC0microSDPlus device (indeterminate 4)
            sizeof_uint32 offset;
     if negb (to_size_t rb.1 =? sizeof_uint32)
     then Exit EXIT_FAILURE
     else match load32 native rb.2 with
          | Some v => Ret v
          | None => Undef
          end) w) in
  (exists v, r = Returned v ∧ 0 <= v <= UINT32_MAX) ∨ r = Exited EXIT_FAILURE.
Proof.
  intros Hread r.
  pose proof (read_register_defined os native w device offset Hread) as Hdef.
  fold r in Hdef. revert Hdef. unfold r. clear r. rewrite run_bind.
  destruct (raw_read_returns os w device (indeterminate 4) sizeof_uint32 offset)
    as [a Ha].
  destruct (res_outcome (run os
    (hostUtilsReadFromC0microSDPlus device (indeterminate 4) sizeof_uint32 offset) w))
    as [a' | |]; try discriminate Ha.
  cbn. destruct (negb _); cbn; [by right |].
  destruct (load32 native a'.2) as [v |] eqn:Hv; cbn; [| done].
  intros _. left. exists v. split; [done |]. by eapply load32_range.
Qed.

(** X8: against any operating system that honours the contract of
    [read], each getter either returns a value of 32 bits or ends the
    process with [EXIT_FAILURE]; it never uses the local variable
    before [read] has filled it, and exits with no other status. *)
Theorem register_getter_value_or_exit
    (os : OS) (native : endianness) (w : world os) (device : string) :
  read_contract os ->
  let ends {A : Type} (op : Prog A) (good : A -> Prop) :=
    (exists a, res_outcome (run os op w) = Returned a ∧ good a)
    ∨ res_outcome (run os op w) = Exited EXIT_FAILURE in
  let word (v : Z) := 0 <= v <= UINT32_MAX in
  ends (hostUtilsGetSignaloidSoCConfigRegister native device) word
  ∧ ends (hostUtilsGetSignaloidSoCStatusRegister native device) word
  ∧ ends (hostUtilsGetSignaloidSoCBootAddressRegister native device) word
  ∧ ends (hostUtilsGetSignaloidSoCConfigRegisterUnpacked native device)
         (fun flags => exists v, word v ∧ flags = config_reg_unpack v).
Proof.
  intros Hread ends word. unfold ends, word. repeat apply conj.
  - apply (read_register_outcome os native w device _ Hread).
  - apply (read_register_outcome os native w device _ Hread).
  - apply (read_register_outcome os native w device _ Hread).
  - unfold hostUtilsGetSignaloidSoCConfigRegisterUnpacked. rewrite run_bind.
    destruct (read_register_outcome os native w device
                kSignaloidSoCConstantsConfigOffset Hread)
      as [(v & Hv & Hrange) | Hexit].
    + left. exists (config_reg_unpack v).
      unfold hostUtilsGetSignaloidSoCConfigRegister. rewrite Hv. cbn.
      split; [done |]. by exists v.
    + right. unfold hostUtilsGetSignaloidSoCConfigRegister. by rewrite Hexit.
Qed.

Lemma register_getter_value_or_exit_witness :
  let w := single_device "/dev/sdb"
             (file_with 0x01006000 kSignaloidSoCConstantsConfigOffset
                [x0f; x00; x00; x80]) in
  (exists v, res_outcome (run file_store
               (hostUtilsGetSignaloidSoCConfigRegister LittleEndian "/dev/sdb") w)
             = Returned v ∧ 0 <= v <= UINT32_MAX)
  ∨ res_outcome (run file_store
       (hostUtilsGetSignaloidSoCConfigRegister LittleEndian "/dev/sdb") w)
     = Exited EXIT_FAILURE.
Proof.
  intros w.
  apply (register_getter_value_or_exit file_store LittleEndian w "/dev/sdb").
  apply file_store_read_contract.
Defined.

(** ** Against the file store *)

(** A continuation that makes no system call leaves the world as the
    first part left it. *)
Lemma run_bind_world (os : OS) {A B : Type} (m : Prog A) (f : A -> Prog B)
    (w : world os) :
  (forall a w', res_world (run os (f a) w') = w') ->
  res_world (run os (m ≫= f) w) = res_world (run os m w).
Proof.
  intros Hf. rewrite run_bind.
  destruct (res_outcome (run os m w)); cbn; [| done | done].
  by rewrite Hf.
Qed.

Lemma read_register_world (os : OS) native (w : world os) device offset :
  res_world (run os
    (rb ← hostUtilsReadFromC0microSDPlus device (indeterminate 4)
            sizeof_uint32 offset;
     if negb (to_size_t rb.1 =? sizeof_uint32)
     then Exit EXIT_FAILURE
     else match load32 native rb.2 with
          | Some v => Ret v
          | None => Undef
          end) w)
  = res_world (run os
      (hostUtilsReadFromC0microSDPlus device (indeterminate 4)
         sizeof_uint32 offset) w).
Proof.
  apply run_bind_world. intros a w'.
  destruct (negb _); [done |]. by destruct (load32 _ _).
Qed.

Section FileStoreFrames.

Implicit Types (w : fs_world) (f : file) (m : gmap Z byte).

(** Bytes are stored nowhere but in the range written. *)
Lemma lookup_store_bytes_outside data : forall pos m i,
  i < pos ∨ pos + Z.of_nat (length data) <= i ->
  store_bytes pos data m !! i = m !! i.
Proof.
  induction data as [| b bs IH]; intros pos m i Hi; [done |].
  cbn [store_bytes length] in *.
  rewrite lookup_insert_ne by lia. apply IH. lia.
Qed.

Lemma file_byte_write_outside f pos data i :
  i < pos ∨ pos + Z.of_nat (length data) <= i ->
  file_byte (file_write f pos data) i = file_byte f i.
Proof.
  intros Hi. unfold file_byte, file_write. cbn.
  by rewrite lookup_store_bytes_outside.
Qed.

(** A read of a range disjoint from the range written sees the file as
    it was. *)
Lemma file_read_write_disjoint f pos data pos' n :
  pos' + n <= pos ∨ pos + Z.of_nat (length data) <= pos' ->
  file_read (file_write f pos data) pos' n = file_read f pos' n.
Proof.
  intros Hdisj. unfold file_read. apply list_fmap_ext. intros k i Hi.
  apply lookup_seqZ in Hi as [-> Hk].
  apply file_byte_write_outside. lia.
Qed.

(** The raw read leaves every file as it was, whatever its outcome. *)
Lemma fs_raw_read_files w device destBuffer size offset :
  fs_files (res_world (run file_store
    (hostUtilsReadFromC0microSDPlus device destBuffer size offset) w))
  = fs_files w.
Proof.
  unfold_raw. cbn -[fresh_fd]. unfold fs_open.
  destruct (fs_files w !! device) as [f |] eqn:Hfile; [| done].
  destruct (fresh_fd (fs_fds w)) as [fd |] eqn:Hfresh; [| done].
  fs_simpl. rewrite (fresh_fd_not_sentinel _ _ Hfresh). cbn.
  unfold fs_lseek. fs_simpl. rewrite lookup_insert_eq.
  destruct ((0 <=? offset) && (offset <=? OFF_MAX)) eqn:Hoff; fs_simpl.
  - destruct (offset =? -1) eqn:Hseek; cbn.
    + unfold fs_close. fs_simpl. by rewrite lookup_insert_eq.
    + erewrite fs_read_ok; [| fs_simpl; apply lookup_insert_eq | done | done].
      fs_simpl. case_if; cbn; unfold fs_close; fs_simpl;
        by rewrite lookup_insert_eq.
  - cbn. unfold fs_close. fs_simpl. by rewrite lookup_insert_eq.
Qed.

End FileStoreFrames.

(** X9: on the file store, a raw read, an MMIO read and each getter
    leave the contents of every file as they were, whatever the outcome
    of the call: reading never changes the device. *)
Theorem reading_leaves_device_unchanged
    (native : endianness) (w : fs_world) (device : string)
    (destBuffer : list cell) (size offset : Z) :
  let files_after {A : Type} (op : Prog A) :=
    fs_files (res_world (run file_store op w)) in
  files_after (hostUtilsReadFromC0microSDPlus device destBuffer size offset)
    = fs_files w
  ∧ files_after (hostUtilsReadSignaloidSoCMMIOBuffer device destBuffer)
    = fs_files w
  ∧ files_after (hostUtilsGetSignaloidSoCConfigRegister native device)
    = fs_files w
  ∧ files_after (hostUtilsGetSignaloidSoCConfigRegisterUnpacked native device)
    = fs_files w
  ∧ files_after (hostUtilsGetSignaloidSoCStatusRegister native device)
    = fs_files w
  ∧ files_after (hostUtilsGetSignaloidSoCBootAddressRegister native device)
    = fs_files w.
Proof.
  intros files_after. unfold files_after.
  assert (Hreg : forall off,
    fs_files (res_world (run file_store
      (rb ← hostUtilsReadFromC0microSDPlus device (indeterminate 4)
              sizeof_uint32 off;
       if negb (to_size_t rb.1 =? sizeof_uint32)
       then Exit EXIT_FAILURE
       else match load32 native rb.2 with
            | Some v => Ret v
            | None => Undef
            end) w)) = fs_files w).
  { intros off.
    rewrite (read_register_world file_store). apply fs_raw_read_files. }
  repeat apply conj.
  - apply fs_raw_read_files.
  - unfold hostUtilsReadSignaloidSoCMMIOBuffer.
    rewrite (run_bind_world file_store); [apply fs_raw_read_files |].
    intros a w'. cbn. by destruct (negb _).
  - apply Hreg.
  - unfold hostUtilsGetSignaloidSoCConfigRegisterUnpacked.
    rewrite (run_bind_world file_store); [apply Hreg | done].
  - apply Hreg.
  - apply Hreg.
Qed.

Section FileStoreWrites.

Implicit Types (w : fs_world) (f : file).

(** A register read after a register write elsewhere sees the register
    as it was. *)
Lemma fs_register_write_read_other native w device f fd value off_w off_r :
  fs_files w !! device = Some f ->
  fresh_fd (fs_fds w) = Some fd ->
  0 <= off_w <= OFF_MAX ->
  0 <= off_r <= OFF_MAX ->
  off_r + 4 <= f_size f ->
  off_r + 4 <= off_w ∨ off_w + 4 <= off_r ->
  let read_at :=
    rb ← hostUtilsReadFromC0microSDPlus device (indeterminate 4)
           sizeof_uint32 off_r;
    if negb (to_size_t rb.1 =? sizeof_uint32)
    then Exit EXIT_FAILURE
    else match load32 native rb.2 with
         | Some v => Ret v
         | None => Undef
         end in
  let wr := run file_store
    (res ← hostUtilsWriteToC0microSDPlus device (encode32 native value)
             sizeof_uint32 off_w;
     if negb (to_size_t res =? sizeof_uint32)
     then Exit EXIT_FAILURE
     else Ret tt) w in
  res_outcome (run file_store read_at (res_world wr))
  = res_outcome (run file_store read_at w).
Proof.
  intros Hfile Hfresh Hw Hr Hsize Hdisj read_at wr. unfold wr, read_at.
  rewrite (fs_write_register_run native _ _ _ _ _ _ Hfile Hfresh Hw).
  cbn [res_world].
  rewrite (fs_read_register_run native _ _ _ _ _ Hfile Hfresh Hr Hsize).
  erewrite fs_read_register_run;
    [| cbn; apply lookup_insert_eq | cbn; exact Hfresh | done |].
  - cbn [res_outcome]. rewrite file_read_write_disjoint; [done |].
    rewrite length_encode32. lia.
  - cbn. lia.
Qed.

End FileStoreWrites.



(** X11: on the file store, with a device that holds the four
    registers, setting one register leaves what the getters of the
    other registers return as it was: the command set does not disturb
    config, status and boot address, the config set does not disturb
    status and boot address, the boot-address set does not disturb
    config and status. *)
Theorem register_set_leaves_other_registers
    (native : endianness) (w : fs_world) device (f : file) fd (value : Z) :
  fs_files w !! device = Some f ->
  fresh_fd (fs_fds w) = Some fd ->
  kSignaloidSoCConstantsStatusOffset + 4 <= f_size f ->
  let get_after {A B : Type} (set : Prog A) (get : Prog B) :=
    res_outcome (run file_store get (res_world (run file_store set w))) in
  let get_before {B : Type} (get : Prog B) :=
    res_outcome (run file_store get w) in
  let set_command := hostUtilsSetSignaloidSoCCommandRegister native device value in
  let set_config := hostUtilsSetSignaloidSoCConfigRegister native device value in
  let set_boot := hostUtilsSetSignaloidSoCBootAddressRegister native device value in
  let get_config := hostUtilsGetSignaloidSoCConfigRegister native device in
  let get_status := hostUtilsGetSignaloidSoCStatusRegister native device in
  let get_boot := hostUtilsGetSignaloidSoCBootAddressRegister native device in
  get_after set_command get_config = get_before get_config
  ∧ get_after set_command get_status = get_before get_status
  ∧ get_after set_command get_boot = get_before get_boot
  ∧ get_after set_config get_status = get_before get_status
  ∧ get_after set_config get_boot = get_before get_boot
  ∧ get_after set_boot get_config = get_before get_config
  ∧ get_after set_boot get_status = get_before get_status.
Proof.
  intros Hfile Hfresh Hsize get_after get_before
    set_command set_config set_boot get_config get_status get_boot.
  unfold kSignaloidSoCConstantsStatusOffset in Hsize.
  repeat apply conj;
    (apply (fs_register_write_read_other native w device f fd value _ _
              Hfile Hfresh);
     [by vm_compute | by vm_compute | |]);
    unfold kSignaloidSoCConstantsConfigOffset,
      kSignaloidSoCConstantsBootAddressOffset,
      kSignaloidSoCConstantsStatusOffset,
      kSignaloidSoCConstantsCommandOffset; lia.
Qed.

(** The status register holds 2 and the boot address 0x00180000; a
    command is set. *)
Lemma register_set_leaves_other_registers_witness :
  let f := {| f_size := 0x01006000;
              f_data := store_bytes kSignaloidSoCConstantsStatusOffset
                          (encode32 LittleEndian 2)
                          (store_bytes kSignaloidSoCConstantsBootAddressOffset
                             (encode32 LittleEndian 0x00180000) ∅) |} in
  let w := single_device "/dev/sdb" f in
  let w' := res_world (run file_store
    (hostUtilsSetSignaloidSoCCommandRegister LittleEndian "/dev/sdb" 7) w) in
  res_outcome (run file_store
    (hostUtilsGetSignaloidSoCStatusRegister LittleEndian "/dev/sdb") w')
  = Returned 2
  ∧ res_outcome (run file_store
      (hostUtilsGetSignaloidSoCBootAddressRegister LittleEndian "/dev/sdb") w')
    = Returned 0x00180000.
Proof.
  intros f w w'.
  destruct (register_set_leaves_other_registers LittleEndian w "/dev/sdb" f 0 7)
    as (_ & Hstatus & Hboot & _).
  - reflexivity.
  - reflexivity.
  - vm_compute. discriminate.
  - split.
    + unfold w'. rewrite Hstatus. reflexivity.
    + unfold w'. rewrite Hboot. reflexivity.
Defined.

(** X12: on the file store, every 32-bit value set in the config
    register or in the boot-address register is the value the matching
    getter returns next, reserved bits of the config register
    included. *)
Theorem register_set_get_roundtrip
    (native : endianness) (w : fs_world) device (f : file) fd (value : Z) :
  fs_files w !! device = Some f ->
  fresh_fd (fs_fds w) = Some fd ->
  0 <= value <= UINT32_MAX ->
  let get_after {A B : Type} (set : Prog A) (get : Prog B) :=
    res_outcome (run file_store get (res_world (run file_store set w))) in
  get_after (hostUtilsSetSignaloidSoCConfigRegister native device value)
            (hostUtilsGetSignaloidSoCConfigRegister native device)
  = Returned value
  ∧ get_after (hostUtilsSetSignaloidSoCBootAddressRegister native device value)
              (hostUtilsGetSignaloidSoCBootAddressRegister native device)
    = Returned value.
Proof.
  intros Hfile Hfresh Hvalue get_after. unfold get_after. split.
  - by destruct (fs_register_write_read native w device f fd value
                   kSignaloidSoCConstantsConfigOffset Hfile Hfresh)
      as [_ Hget]; [by vm_compute | done |].
  - by destruct (fs_register_write_read native w device f fd value
                   kSignaloidSoCConstantsBootAddressOffset Hfile Hfresh)
      as [_ Hget]; [by vm_compute | done |].
Qed.

Lemma register_set_get_roundtrip_witness :
  let w := single_device "/dev/sdb" (file_with 0x01006000 0 []) in
  res_outcome (run file_store
    (hostUtilsGetSignaloidSoCConfigRegister BigEndian "/dev/sdb")
    (res_world (run file_store
       (hostUtilsSetSignaloidSoCConfigRegister BigEndian "/dev/sdb" 0xCAFE0005) w)))
  = Returned 0xCAFE0005
  ∧ res_outcome (run file_store
      (hostUtilsGetSignaloidSoCBootAddressRegister BigEndian "/dev/sdb")
      (res_world (run file_store
         (hostUtilsSetSignaloidSoCBootAddressRegister BigEndian "/dev/sdb"
            0xCAFE0005) w)))
    = Returned 0xCAFE0005.
Proof.
  intros w.
  apply (register_set_get_roundtrip BigEndian w "/dev/sdb"
           (file_with 0x01006000 0 []) 0 0xCAFE0005).
  - reflexivity.
  - reflexivity.
  - vm_compute. split; discriminate.
Defined.

(** X13: on the file store, with a device that holds the registers
    and the MMIO buffer, the MMIO write of a source buffer followed by
    the MMIO read returns the first 8192 bytes of the source at the
    start of the destination buffer, and the write leaves what the
    three getters return as it was. *)
Theorem mmio_buffer_write_read_roundtrip
    (native : endianness) (w : fs_world) device (f : file) fd
    (sourceBuffer : list byte) (destBuffer : list cell) :
  fs_files w !! device = Some f ->
  fresh_fd (fs_fds w) = Some fd ->
  kSignaloidSoCConstantsStatusOffset + 4 <= f_size f ->
  (Z.to_nat kSignaloidSoCConstantsMMIOBufferSizeBytes <= length sourceBuffer)%nat ->
  let wr := run file_store
    (hostUtilsWriteSignaloidSoCMMIOBuffer device sourceBuffer) w in
  let after {B : Type} (op : Prog B) :=
    res_outcome (run file_store op (res_world wr)) in
  let before {B : Type} (op : Prog B) := res_outcome (run file_store op w) in
  res_outcome wr = Returned tt
  ∧ after (hostUtilsReadSignaloidSoCMMIOBuffer device destBuffer)
    = Returned (overlay (take (Z.to_nat kSignaloidSoCConstantsMMIOBufferSizeBytes) sourceBuffer) destBuffer)
  ∧ after (hostUtilsGetSignaloidSoCConfigRegister native device)
    = before (hostUtilsGetSignaloidSoCConfigRegister native device)
  ∧ after (hostUtilsGetSignaloidSoCStatusRegister native device)
    = before (hostUtilsGetSignaloidSoCStatusRegister native device)
  ∧ after (hostUtilsGetSignaloidSoCBootAddressRegister native device)
    = before (hostUtilsGetSignaloidSoCBootAddressRegister native device).
Proof.
  intros Hfile Hfresh Hsize Hlen wr after before.
  unfold kSignaloidSoCConstantsStatusOffset in Hsize.
  assert (Hwr : wr =
    {| res_outcome := Returned tt;
       res_world :=
         {| fs_files := <[device := file_write f
                            kSignaloidSoCConstantsMMIOBufferOffset
                            (take (Z.to_nat kSignaloidSoCConstantsMMIOBufferSizeBytes) sourceBuffer)]> (fs_files w);
            fs_fds := fs_fds w;
            fs_stderr := fs_stderr w |};
       res_trace := res_trace wr |}).
  { unfold wr, hostUtilsWriteSignaloidSoCMMIOBuffer.
    rewrite run_bind, (fs_raw_write_run _ _ _ _ _ _ _ Hfile Hfresh);
      [| by vm_compute | by vm_compute | exact Hlen].
    cbn. done. }
  assert (Htake : Z.of_nat (length (take
            (Z.to_nat kSignaloidSoCConstantsMMIOBufferSizeBytes) sourceBuffer))
          = kSignaloidSoCConstantsMMIOBufferSizeBytes).
  { rewrite length_take_le by done.
    unfold kSignaloidSoCConstantsMMIOBufferSizeBytes. lia. }
  assert (Hreg : forall off,
    0 <= off -> off + 4 <= kSignaloidSoCConstantsStatusOffset + 4 ->
    res_outcome (run file_store
      (rb ← hostUtilsReadFromC0microSDPlus device (indeterminate 4)
              sizeof_uint32 off;
       if negb (to_size_t rb.1 =? sizeof_uint32)
       then Exit EXIT_FAILURE
       else match load32 native rb.2 with
            | Some v => Ret v
            | None => Undef
            end) (res_world wr))
    = res_outcome (run file_store
      (rb ← hostUtilsReadFromC0microSDPlus device (indeterminate 4)
              sizeof_uint32 off;
       if negb (to_size_t rb.1 =? sizeof_uint32)
       then Exit EXIT_FAILURE
       else match load32 native rb.2 with
            | Some v => Ret v
            | None => Undef
            end) w)).
  { intros off Hoff Hoff'.
    unfold kSignaloidSoCConstantsStatusOffset in Hoff'.
    assert (Hrange : 0 <= off <= OFF_MAX) by (unfold OFF_MAX; lia).
    rewrite Hwr. cbn [res_world].
    rewrite (fs_read_register_run native _ _ _ _ _ Hfile Hfresh Hrange)
      by lia.
    erewrite fs_read_register_run;
      [| cbn; apply lookup_insert_eq | cbn; exact Hfresh | done |].
    - cbn [res_outcome]. rewrite file_read_write_disjoint; [done |].
      unfold kSignaloidSoCConstantsMMIOBufferOffset. lia.
    - cbn. rewrite Htake. unfold kSignaloidSoCConstantsMMIOBufferOffset,
        kSignaloidSoCConstantsMMIOBufferSizeBytes. lia. }
  split; [by rewrite Hwr |]. split.
  - unfold after, hostUtilsReadSignaloidSoCMMIOBuffer.
    rewrite Hwr. cbn [res_world]. rewrite run_bind.
    erewrite fs_raw_read_run;
      [| cbn; apply lookup_insert_eq | cbn; exact Hfresh | by vm_compute].
    cbn [res_outcome f_size file_write].
    assert (Hn : Z.max 0 (Z.min
                   (Z.min kSignaloidSoCConstantsMMIOBufferSizeBytes SSIZE_MAX)
                   (Z.max (f_size f)
                      (kSignaloidSoCConstantsMMIOBufferOffset
                       + Z.of_nat (length (take (Z.to_nat kSignaloidSoCConstantsMMIOBufferSizeBytes) sourceBuffer)))
                    - kSignaloidSoCConstantsMMIOBufferOffset))
                 = Z.of_nat (length (take (Z.to_nat kSignaloidSoCConstantsMMIOBufferSizeBytes) sourceBuffer))).
    { rewrite Htake.
      unfold kSignaloidSoCConstantsMMIOBufferSizeBytes,
        kSignaloidSoCConstantsMMIOBufferOffset, SSIZE_MAX. lia. }
    rewrite Hn.
    fold (file_write f kSignaloidSoCConstantsMMIOBufferOffset
            (take (Z.to_nat kSignaloidSoCConstantsMMIOBufferSizeBytes) sourceBuffer)).
    rewrite file_read_write, Htake. cbn. done.
  - unfold after, before. repeat apply conj; apply Hreg; by vm_compute.
Qed.

(** A device of 0x01006000 bytes, a source buffer of 8192 bytes 0x5a. *)
Lemma mmio_buffer_write_read_roundtrip_witness :
  let w := single_device "/dev/sdb" (file_with 0x01006000 0 []) in
  let src := replicate (Z.to_nat kSignaloidSoCConstantsMMIOBufferSizeBytes) x5a in
  let wr := run file_store (hostUtilsWriteSignaloidSoCMMIOBuffer "/dev/sdb" src) w in
  res_outcome wr = Returned tt
  ∧ res_outcome (run file_store
      (hostUtilsReadSignaloidSoCMMIOBuffer "/dev/sdb" []) (res_world wr))
    = Returned (overlay
        (take (Z.to_nat kSignaloidSoCConstantsMMIOBufferSizeBytes) src) []).
Proof.
  intros w src wr.
  destruct (mmio_buffer_write_read_roundtrip LittleEndian w "/dev/sdb"
              (file_with 0x01006000 0 []) 0 src [])
    as (Hwr & Hrd & _).
  - reflexivity.
  - reflexivity.
  - vm_compute. discriminate.
  - unfold src. rewrite length_replicate. apply le_n.
  - split; [exact Hwr | exact Hrd].
Defined.

(** ** The config register's flags *)

(** The test [(reg_val >> i) & 0x1] is bit [i] of the word. *)
Lemma flag_is_bit v i : 0 <= i -> c_bool (Z.land (Z.shiftr v i) 1) = Z.testbit v i.
Proof.
  intros Hi. unfold c_bool.
  assert (Hland : Z.land (Z.shiftr v i) 1 = Z.shiftr v i mod 2)
    by (apply (Z.land_ones (Z.shiftr v i) 1); lia).
  rewrite Hland, <- Z.bit0_mod, Z.shiftr_spec, Z.add_0_l by lia.
  by destruct (Z.testbit v i).
Qed.

Lemma config_unpack_bits v :
  config_reg_unpack v
  = (Z.testbit v 0, Z.testbit v 1, Z.testbit v 2, Z.testbit v 3).
Proof. unfold config_reg_unpack. by rewrite !flag_is_bit by lia. Qed.

Lemma config_pack_bit b0 b1 b2 b3 i :
  0 <= i ->
  Z.testbit (config_reg_pack b0 b1 b2 b3) i
  = if i =? 0 then b0 else if i =? 1 then b1 else if i =? 2 then b2
    else if i =? 3 then b3 else false.
Proof.
  intros Hi.
  destruct (Z.eqb_spec i 0) as [-> |]; [by destruct b0, b1, b2, b3 |].
  destruct (Z.eqb_spec i 1) as [-> |]; [by destruct b0, b1, b2, b3 |].
  destruct (Z.eqb_spec i 2) as [-> |]; [by destruct b0, b1, b2, b3 |].
  destruct (Z.eqb_spec i 3) as [-> |]; [by destruct b0, b1, b2, b3 |].
  apply config_pack_high_bits. lia.
Qed.

Lemma config_pack_unpack v :
  config_reg_pack (Z.testbit v 0) (Z.testbit v 1) (Z.testbit v 2) (Z.testbit v 3)
  = Z.land v 15.
Proof.
  apply Z.bits_inj'. intros i Hi.
  rewrite config_pack_bit, Z.land_spec by done.
  destruct (Z.eqb_spec i 0) as [-> |]; [by rewrite andb_true_r |].
  destruct (Z.eqb_spec i 1) as [-> |]; [by rewrite andb_true_r |].
  destruct (Z.eqb_spec i 2) as [-> |]; [by rewrite andb_true_r |].
  destruct (Z.eqb_spec i 3) as [-> |]; [by rewrite andb_true_r |].
  change 15 with (Z.ones 4). rewrite Z.ones_spec_high by lia.
  by rewrite andb_false_r.
Qed.

(** X14: the four flags that the unpacked get extracts from a register
    word are bits 0, 1, 2 and 3 of the word, whatever its other bits;
    two words that agree on their low four bits unpack to the same
    flags. *)
Theorem config_unpack_reads_low_bits (v v' : Z) :
  config_reg_unpack v
  = (Z.testbit v 0, Z.testbit v 1, Z.testbit v 2, Z.testbit v 3)
  ∧ (Z.land v 15 = Z.land v' 15 -> config_reg_unpack v = config_reg_unpack v').
Proof.
  split; [apply config_unpack_bits |].
  intros Hlow. rewrite !config_unpack_bits.
  assert (Hbit : forall i, 0 <= i < 4 -> Z.testbit v i = Z.testbit v' i).
  { intros i Hi.
    pose proof (f_equal (fun x => Z.testbit x i) Hlow) as Hi'. cbn in Hi'.
    rewrite !Z.land_spec in Hi'. change 15 with (Z.ones 4) in Hi'.
    rewrite Z.ones_spec_low in Hi' by lia. by rewrite !andb_true_r in Hi'. }
  by rewrite !Hbit by lia.
Qed.

Lemma config_unpack_reads_low_bits_witness :
  config_reg_unpack 0xFFFFFFF5 = config_reg_unpack 0x00000005.
Proof.
  apply (config_unpack_reads_low_bits 0xFFFFFFF5 0x00000005).
  reflexivity.
Defined.

(** X15: on the file store, reading the config register unpacked and
    setting it unpacked to the flags read keeps bits 0 to 3 of the
    register and clears every other bit: the register then holds the
    old word masked with 0xF. *)
Theorem config_unpacked_get_set_masks_register
    (native : endianness) (w : fs_world) device (f : file) fd (v : Z) :
  fs_files w !! device = Some f ->
  fresh_fd (fs_fds w) = Some fd ->
  kSignaloidSoCConstantsConfigOffset + 4 <= f_size f ->
  0 <= v <= UINT32_MAX ->
  file_read f kSignaloidSoCConstantsConfigOffset 4 = encode32 native v ->
  let get := run file_store
    (hostUtilsGetSignaloidSoCConfigRegisterUnpacked native device) w in
  exists rstn unlock_bitstream_section sw_led_enable sw_led,
    res_outcome get
      = Returned (rstn, unlock_bitstream_section, sw_led_enable, sw_led)
    ∧ let set := run file_store
        (hostUtilsSetSignaloidSoCConfigRegisterUnpacked native device
           rstn unlock_bitstream_section sw_led_enable sw_led)
        (res_world get) in
      res_outcome set = Returned tt
      ∧ res_outcome (run file_store
          (hostUtilsGetSignaloidSoCConfigRegister native device) (res_world set))
        = Returned (Z.land v 15).
Proof.
  intros Hfile Hfresh Hsize Hv Hbytes get.
  exists (Z.testbit v 0), (Z.testbit v 1), (Z.testbit v 2), (Z.testbit v 3).
  assert (Hget : get =
    {| res_outcome := Returned (config_reg_unpack v);
       res_world := {| fs_files := fs_files w;
                       fs_fds := fs_fds w;
                       fs_stderr := fs_stderr w |};
       res_trace := res_trace get |}).
  { unfold get, hostUtilsGetSignaloidSoCConfigRegisterUnpacked,
      hostUtilsGetSignaloidSoCConfigRegister.
    rewrite run_bind,
      (fs_read_register_run native _ _ _ _ _ Hfile Hfresh);
      [| by vm_compute | done].
    cbn. by rewrite Hbytes, decode_encode32. }
  split; [by rewrite Hget, config_unpack_bits |].
  rewrite Hget. cbn [res_world].
  unfold hostUtilsSetSignaloidSoCConfigRegisterUnpacked.
  rewrite config_pack_unpack.
  assert (Hmask : 0 <= Z.land v 15 <= UINT32_MAX).
  { change 15 with (Z.ones 4). rewrite Z.land_ones by lia.
    pose proof (Z.mod_pos_bound v (2 ^ 4) ltac:(lia)).
    unfold UINT32_MAX. lia. }
  apply (fs_register_write_read native
           {| fs_files := fs_files w; fs_fds := fs_fds w;
              fs_stderr := fs_stderr w |}
           device f fd (Z.land v 15) kSignaloidSoCConstantsConfigOffset);
    [done | done | by vm_compute | done].
Qed.

Lemma config_unpacked_get_set_masks_register_witness :
  let f := file_with 0x01006000 kSignaloidSoCConstantsConfigOffset
             (encode32 LittleEndian 0xABCD0136) in
  let w := single_device "/dev/sdb" f in
  let get := run file_store
    (hostUtilsGetSignaloidSoCConfigRegisterUnpacked LittleEndian "/dev/sdb") w in
  exists rstn unlock_bitstream_section sw_led_enable sw_led,
    res_outcome get
      = Returned (rstn, unlock_bitstream_section, sw_led_enable, sw_led)
    ∧ let set := run file_store
        (hostUtilsSetSignaloidSoCConfigRegisterUnpacked LittleEndian "/dev/sdb"
           rstn unlock_bitstream_section sw_led_enable sw_led)
        (res_world get) in
      res_outcome set = Returned tt
      ∧ res_outcome (run file_store
          (hostUtilsGetSignaloidSoCConfigRegister LittleEndian "/dev/sdb")
          (res_world set))
        = Returned (Z.land 0xABCD0136 15).
Proof.
  intros f w.
  apply (config_unpacked_get_set_masks_register LittleEndian w "/dev/sdb" f 0
           0xABCD0136).
  - reflexivity.
  - reflexivity.
  - vm_compute. discriminate.
  - vm_compute. split; discriminate.
  - reflexivity.
Defined.

(** ** Fatal paths on the file store *)

Section FileStoreFatal.

Implicit Types (w : fs_world) (f : file).

Lemma fs_raw_write_missing w device sourceBuffer size offset :
  fs_files w !! device = None ->
  run file_store
    (hostUtilsWriteToC0microSDPlus device sourceBuffer size offset) w =
  {| res_outcome := Returned (-1);
     res_world := {| fs_files := fs_files w;
                     fs_fds := fs_fds w;
                     fs_stderr := fs_stderr w ++ ["Error opening device"%string] |};
     res_trace := [EvOpen device [O_WRONLY; O_SYNC; O_DSYNC] (-1);
                   EvPerror "Error opening device"] |}.
Proof.
  intros Hfile. unfold_raw. cbn -[fresh_fd].
  by rewrite (fs_open_missing _ _ _ Hfile).
Qed.

(** A register read of a device that ends before the register does. *)
Lemma fs_read_register_short native w device f fd offset :
  fs_files w !! device = Some f ->
  fresh_fd (fs_fds w) = Some fd ->
  0 <= offset <= OFF_MAX ->
  f_size f < offset + 4 ->
  let r := run file_store
    (rb ← hostUtilsReadFromC0microSDPlus device (indeterminate 4)
            sizeof_uint32 offset;
     if negb (to_size_t rb.1 =? sizeof_uint32)
     then Exit EXIT_FAILURE
     else match load32 native rb.2 with
          | Some v => Ret v
          | None => Undef
          end) w in
  res_outcome r = Exited EXIT_FAILURE
  ∧ fs_stderr (res_world r)
    = fs_stderr w ++ ["Error reading data from the device"%string]
  ∧ fs_files (res_world r) = fs_files w.
Proof.
  intros Hfile Hfresh Hoff Hsize r. unfold r.
  rewrite run_bind, (fs_raw_read_run _ _ _ _ _ _ _ Hfile Hfresh Hoff).
  cbn [res_outcome res_world res_trace fst snd].
  assert (Hshort : negb (to_size_t (Z.max 0 (Z.min (Z.min sizeof_uint32 SSIZE_MAX)
                      (f_size f - offset))) =? sizeof_uint32) = true).
  { apply short_count_mismatch. unfold sizeof_uint32, SSIZE_MAX. lia. }
  rewrite Hshort. cbn. done.
Qed.

End FileStoreFatal.

(** X16: on the file store, when no file is at the device path, each
    register-level operation ends the process with [EXIT_FAILURE] after
    the one diagnostic "Error opening device", having changed no file
    and left no descriptor open. *)
Theorem register_operation_on_missing_device
    (native : endianness) (w : fs_world) (device : string)
    (destBuffer : list cell) (sourceBuffer : list byte) (value : Z)
    (rstn unlock_bitstream_section sw_led_enable sw_led : bool) :
  fs_files w !! device = None ->
  let fatal {A : Type} (op : Prog A) :=
    res_outcome (run file_store op w) = Exited EXIT_FAILURE
    ∧ res_world (run file_store op w)
      = {| fs_files := fs_files w;
           fs_fds := fs_fds w;
           fs_stderr := fs_stderr w ++ ["Error opening device"%string] |} in
  fatal (hostUtilsReadSignaloidSoCMMIOBuffer device destBuffer)
  ∧ fatal (hostUtilsWriteSignaloidSoCMMIOBuffer device sourceBuffer)
  ∧ fatal (hostUtilsGetSignaloidSoCConfigRegister native device)
  ∧ fatal (hostUtilsSetSignaloidSoCConfigRegister native device value)
  ∧ fatal (hostUtilsGetSignaloidSoCConfigRegisterUnpacked native device)
  ∧ fatal (hostUtilsSetSignaloidSoCConfigRegisterUnpacked native device
             rstn unlock_bitstream_section sw_led_enable sw_led)
  ∧ fatal (hostUtilsSetSignaloidSoCCommandRegister native device value)
  ∧ fatal (hostUtilsGetSignaloidSoCStatusRegister native device)
  ∧ fatal (hostUtilsGetSignaloidSoCBootAddressRegister native device)
  ∧ fatal (hostUtilsSetSignaloidSoCBootAddressRegister native device value).
Proof.
  intros Hfile fatal. unfold fatal.
  unfold hostUtilsGetSignaloidSoCConfigRegisterUnpacked,
    hostUtilsSetSignaloidSoCConfigRegisterUnpacked,
    hostUtilsReadSignaloidSoCMMIOBuffer, hostUtilsWriteSignaloidSoCMMIOBuffer,
    hostUtilsGetSignaloidSoCConfigRegister,
    hostUtilsSetSignaloidSoCConfigRegister,
    hostUtilsSetSignaloidSoCCommandRegister,
    hostUtilsGetSignaloidSoCStatusRegister,
    hostUtilsGetSignaloidSoCBootAddressRegister,
    hostUtilsSetSignaloidSoCBootAddressRegister.
  rewrite !run_bind.
  rewrite !(fs_raw_read_missing _ _ _ _ _ Hfile),
    !(fs_raw_write_missing _ _ _ _ _ Hfile).
  by repeat split.
Qed.

Lemma register_operation_on_missing_device_witness :
  let w := single_device "/dev/sdb" (file_with 0x01006000 0 []) in
  res_outcome (run file_store
    (hostUtilsSetSignaloidSoCCommandRegister LittleEndian "/dev/sdc" 1) w)
  = Exited EXIT_FAILURE
  ∧ res_world (run file_store
      (hostUtilsSetSignaloidSoCCommandRegister LittleEndian "/dev/sdc" 1) w)
    = {| fs_files := fs_files w;
         fs_fds := fs_fds w;
         fs_stderr := fs_stderr w ++ ["Error opening device"%string] |}.
Proof.
  intros w.
  destruct (register_operation_on_missing_device LittleEndian w "/dev/sdc"
              [] [] 1 false false false false)
    as (_ & _ & _ & _ & _ & _ & Hcommand & _).
  - reflexivity.
  - exact Hcommand.
Defined.

(** X17: on the file store, when the device file ends before the end
    of a register, the getter of that register ends the process with
    [EXIT_FAILURE] after the diagnostic "Error reading data from the
    device", having changed no file: a short read is fatal at the
    register level. *)
Theorem register_getter_on_short_device
    (native : endianness) (w : fs_world) device (f : file) fd :
  fs_files w !! device = Some f ->
  fresh_fd (fs_fds w) = Some fd ->
  let fatal {A : Type} (op : Prog A) :=
    res_outcome (run file_store op w) = Exited EXIT_FAILURE
    ∧ fs_stderr (res_world (run file_store op w))
      = fs_stderr w ++ ["Error reading data from the device"%string]
    ∧ fs_files (res_world (run file_store op w)) = fs_files w in
  (f_size f < kSignaloidSoCConstantsConfigOffset + 4 ->
   fatal (hostUtilsGetSignaloidSoCConfigRegister native device)
   ∧ fatal (hostUtilsGetSignaloidSoCConfigRegisterUnpacked native device))
  ∧ (f_size f < kSignaloidSoCConstantsBootAddressOffset + 4 ->
     fatal (hostUtilsGetSignaloidSoCBootAddressRegister native device))
  ∧ (f_size f < kSignaloidSoCConstantsStatusOffset + 4 ->
     fatal (hostUtilsGetSignaloidSoCStatusRegister native device)).
Proof.
  intros Hfile Hfresh fatal. unfold fatal.
  repeat match goal with |- _ ∧ _ => split end; intros Hsize.
  - split.
    + apply (fs_read_register_short native w device f fd _ Hfile Hfresh);
        [by vm_compute | done].
    + unfold hostUtilsGetSignaloidSoCConfigRegisterUnpacked.
      destruct (fs_read_register_short native w device f fd
                  kSignaloidSoCConstantsConfigOffset Hfile Hfresh)
        as (Hout & Herr & Hfiles); [by vm_compute | done |].
      rewrite run_bind. unfold hostUtilsGetSignaloidSoCConfigRegister.
      rewrite Hout. by cbn.
  - apply (fs_read_register_short native w device f fd _ Hfile Hfresh);
      [by vm_compute | done].
  - apply (fs_read_register_short native w device f fd _ Hfile Hfresh);
      [by vm_compute | done].
Qed.

(** A device of 0x0100000E bytes: the status register is cut short. *)
Lemma register_getter_on_short_device_witness :
  let w := single_device "/dev/sdb" (file_with 0x0100000E 0 []) in
  res_outcome (run file_store
    (hostUtilsGetSignaloidSoCStatusRegister LittleEndian "/dev/sdb") w)
  = Exited EXIT_FAILURE
  ∧ fs_stderr (res_world (run file_store
      (hostUtilsGetSignaloidSoCStatusRegister LittleEndian "/dev/sdb") w))
    = fs_stderr w ++ ["Error reading data from the device"%string]
  ∧ fs_files (res_world (run file_store
      (hostUtilsGetSignaloidSoCStatusRegister LittleEndian "/dev/sdb") w))
    = fs_files w.
Proof.
  intros w.
  destruct (register_getter_on_short_device LittleEndian w "/dev/sdb"
              (file_with 0x0100000E 0 []) 0)
    as (_ & _ & Hstatus).
  - reflexivity.
  - reflexivity.
  - apply Hstatus. vm_compute. reflexivity.
Defined.
